(** * load-tester: the prober, the worker pool and the aggregator

    A shallow embedding of the four programs of the repository:

    - [Part000]     the first command-line program (src/unnamed/part_000);
    - [Part001Cli]  the command-line program with a summary
                    (src/unnamed/part_001, lines 1-188);
    - [Index]       the interactive program, GET only (src/index.ts);
    - [Part001Repl] the interactive program with method and body
                    (src/unnamed/part_001, lines 189-447).

    Timestamps ([Date.now()]), counters and status codes are integers far
    below 2^53, where the arithmetic of a JavaScript number is exact: they
    are modelled in [Z].  The seconds handed to [calcStats] and the request
    rate are genuine JavaScript numbers; their arithmetic is a parameter of
    the development ([JSNumber]) with two instances, IEEE-754 binary64 (what
    the programs run on) and exact rational arithmetic extended with
    Infinity, -Infinity and NaN. *)

From Stdlib Require Import String.
From stdpp Require Import base list gmap pretty.
From Stdlib Require Import ZArith QArith Floats Lia Lqa.

Local Open Scope Z_scope.

(* ================================================================== *)
(** * JavaScript numbers *)
(* ================================================================== *)

(** The operations the programs apply to non-integer numbers: [/], [+],
    [Math.min], [Math.max] (one step of their left-to-right scan, started
    from [Infinity] and [-Infinity]), and the comparisons used to state
    properties of the results. *)
Class JSNumber (num : Type) := {
  num_of_Z : Z -> num;
  num_add : num -> num -> num;
  num_div : num -> num -> num;
  num_min : num -> num -> num;
  num_max : num -> num -> num;
  num_infinity : num;
  num_neg_infinity : num;
  num_leb : num -> num -> bool;
  num_ltb : num -> num -> bool;
  num_is_nan : num -> bool;
  num_is_finite : num -> bool
}.

(** ** IEEE-754 binary64 *)

Module Binary64.

(** The number whose value is the integer [z], rounded to nearest even
    (exact below 2^53). *)
Definition of_Z (z : Z) : float :=
  SF2Prim (binary_normalize prec emax z 0 false).

Definition is_neg_zero (x : float) : bool :=
  match classify x with NZero => true | _ => false end.

Definition is_pos_zero (x : float) : bool :=
  match classify x with PZero => true | _ => false end.

(** One step of [Math.min]: NaN is absorbing, -0 is below +0. *)
Definition min (lowest number : float) : float :=
  if is_nan lowest || is_nan number then nan
  else if is_neg_zero number && is_pos_zero lowest then number
  else if (number <? lowest)%float then number
  else lowest.

(** One step of [Math.max]: NaN is absorbing, +0 is above -0. *)
Definition max (highest number : float) : float :=
  if is_nan highest || is_nan number then nan
  else if is_pos_zero number && is_neg_zero highest then number
  else if (highest <? number)%float then number
  else highest.

End Binary64.

#[export] Instance binary64 : JSNumber float := {
  num_of_Z := Binary64.of_Z;
  num_add := PrimFloat.add;
  num_div := PrimFloat.div;
  num_min := Binary64.min;
  num_max := Binary64.max;
  num_infinity := infinity;
  num_neg_infinity := neg_infinity;
  num_leb := PrimFloat.leb;
  num_ltb := PrimFloat.ltb;
  num_is_nan := is_nan;
  num_is_finite := is_finite
}.

(** ** Exact arithmetic

    The same operations without rounding: a rational, or one of the three
    special values.  Zero carries no sign (it behaves as +0). *)

Inductive xnum : Type :=
| XFin (q : Q)
| XInf
| XNegInf
| XNaN.

Module Exact.

Definition add (a b : xnum) : xnum :=
  match a, b with
  | XNaN, _ | _, XNaN => XNaN
  | XFin p, XFin q => XFin (p + q)
  | XInf, XNegInf | XNegInf, XInf => XNaN
  | XInf, _ | _, XInf => XInf
  | XNegInf, _ | _, XNegInf => XNegInf
  end.

Definition div (a b : xnum) : xnum :=
  match a, b with
  | XNaN, _ | _, XNaN => XNaN
  | XFin p, XFin q =>
      if Qeq_bool q 0 then
        (if Qeq_bool p 0 then XNaN
         else if Qle_bool 0 p then XInf else XNegInf)
      else XFin (p / q)
  | XFin _, _ => XFin 0
  | _, XInf | _, XNegInf => XNaN
  | XInf, XFin q => if Qle_bool 0 q then XInf else XNegInf
  | XNegInf, XFin q => if Qle_bool 0 q then XNegInf else XInf
  end.

Definition leb (a b : xnum) : bool :=
  match a, b with
  | XNaN, _ | _, XNaN => false
  | XNegInf, _ | _, XInf => true
  | XFin p, XFin q => Qle_bool p q
  | _, _ => false
  end.

Definition ltb (a b : xnum) : bool :=
  match a, b with
  | XNaN, _ | _, XNaN => false
  | XFin p, XFin q => negb (Qle_bool q p)
  | XNegInf, XNegInf | XInf, XInf => false
  | XNegInf, _ | _, XInf => true
  | _, _ => false
  end.

Definition is_nan (a : xnum) : bool :=
  match a with XNaN => true | _ => false end.

Definition is_finite (a : xnum) : bool :=
  match a with XFin _ => true | _ => false end.

Definition min (lowest number : xnum) : xnum :=
  if is_nan lowest || is_nan number then XNaN
  else if ltb number lowest then number
  else lowest.

Definition max (highest number : xnum) : xnum :=
  if is_nan highest || is_nan number then XNaN
  else if ltb highest number then number
  else highest.

End Exact.

#[export] Instance exact_arith : JSNumber xnum := {
  num_of_Z := fun z => XFin (inject_Z z);
  num_add := Exact.add;
  num_div := Exact.div;
  num_min := Exact.min;
  num_max := Exact.max;
  num_infinity := XInf;
  num_neg_infinity := XNegInf;
  num_leb := Exact.leb;
  num_ltb := Exact.ltb;
  num_is_nan := Exact.is_nan;
  num_is_finite := Exact.is_finite
}.

(* ================================================================== *)
(** * Data model *)
(* ================================================================== *)

(** [interface RequestStat]: an absent optional field is [None]. *)
Module RequestStat.
Record t : Type := mk {
  statusCode : option Z;
  error : option string;
  totalTime : Z;
  timeToFirstByte : option Z;
  timeToLastByte : option Z
}.
End RequestStat.

(** The result of [calcStats]. *)
Module Stats.
Record t (num : Type) : Type := mk { min : num; max : num; avg : num }.
Arguments mk {num} _ _ _.
Arguments min {num} _.
Arguments max {num} _.
Arguments avg {num} _.
End Stats.

(** [interface Summary]. *)
Module Summary.
Record t (num : Type) : Type := mk {
  successCount : Z;
  failedCount : Z;
  requestsPerSecond : num;
  totalTime : Stats.t num;
  timeToFirstByte : Stats.t num;
  timeToLastByte : Stats.t num
}.
Arguments mk {num} _ _ _ _ _ _.
Arguments successCount {num} _.
Arguments failedCount {num} _.
Arguments requestsPerSecond {num} _.
Arguments totalTime {num} _.
Arguments timeToFirstByte {num} _.
Arguments timeToLastByte {num} _.
End Summary.

(** What the transport reports for one exchange, in the order the handlers
    run.  [RequestError] is the ['error'] event of the request object
    (connection refused, DNS or TLS failure); the other four belong to the
    response: the response callback with [res.statusCode], and the ['data'],
    ['end'] and ['error'] events of [res]. *)
Inductive event : Type :=
| RequestError (message : string)
| Response (statusCode : option Z)
| Data
| End_
| ResponseError (message : string).

(** One exchange: the value of [Date.now()] when [makeRequest] is entered,
    and the events that follow, each with the value of [Date.now()] inside
    its handler.  The handlers of an exchange touch only the variables of
    their own closure ([startTime], [firstByteTime]), so the interleaving of
    the events of different exchanges is not observable; only the order in
    which the promises settle is, and the worker pool below takes it as its
    schedule.  The URL is taken to be well formed: [new URL(url)] does not
    throw. *)
Record exchange : Type := {
  startTime : Z;
  events : list (Z * event)
}.

(** The fate of the promise returned by an asynchronous call.  [Uncaught]
    is the case where an ['error'] event is emitted on an object that has
    no listener for it: Node throws it as an uncaught exception, the process
    ends and the promise is never settled. *)
Inductive completion (A : Type) : Type :=
| Pending
| Fulfilled (value : A)
| Rejected (reason : string)
| Uncaught (reason : string).
Arguments Pending {A}.
Arguments Fulfilled {A} _.
Arguments Rejected {A} _.
Arguments Uncaught {A} _.

Definition is_fulfilled {A} (c : completion A) : bool :=
  match c with Fulfilled _ => true | _ => false end.

(** The closure of one call of [makeRequest]: [firstByteTime], the response
    object once the callback has run (its [statusCode]), and the promise. *)
Record probe : Type := {
  firstByteTime : option Z;
  res : option (option Z);
  promise : completion RequestStat.t
}.

Definition probe0 : probe :=
  {| firstByteTime := None; res := None; promise := Pending |}.

(** [resolve], [reject] and the uncaught throw act on a pending promise
    only: a promise settles once. *)
Definition settle (c : completion RequestStat.t) (p : probe) : probe :=
  match promise p with
  | Pending => {| firstByteTime := firstByteTime p; res := res p; promise := c |}
  | _ => p
  end.

(** [res.on('data', ...)]: the first chunk sets [firstByteTime]. *)
Definition on_data (now : Z) (p : probe) : probe :=
  match firstByteTime p with
  | None => {| firstByteTime := Some now; res := res p; promise := promise p |}
  | Some _ => p
  end.

(** The response callback: from now on the handlers of [res] are installed. *)
Definition on_response (statusCode : option Z) (p : probe) : probe :=
  match res p with
  | None => {| firstByteTime := firstByteTime p; res := Some statusCode;
               promise := promise p |}
  | Some _ => p
  end.

(** [res.statusCode || 0]: [undefined] and [0] are falsy. *)
Definition status_or_0 (statusCode : option Z) : Z :=
  match statusCode with
  | Some c => if c =? 0 then 0 else c
  | None => 0
  end.

(** [firstByteTime ? a : undefined]: [null] and [0] are falsy. *)
Definition if_first_byte (firstByteTime : option Z) (a : Z -> Z) : option Z :=
  match firstByteTime with
  | Some t => if t =? 0 then None else Some (a t)
  | None => None
  end.

(* ================================================================== *)
(** * The worker pool *)
(* ================================================================== *)

(** The four programs share the dispatcher: [runLoadTest] declares [stats]
    and the counter [requestSent], defines [worker], calls it [concurrency]
    times and awaits [Promise.all] (src/index.ts lines 101-119; part_000
    lines 95-122; part_001 lines 112-140 and 309-327).  JavaScript runs one
    handler at a time: a call of [worker] runs up to its first [await], and
    a worker resumes when the promise it awaits settles. *)

(** A worker is suspended at its [await], has returned, or has thrown
    (the awaited promise was rejected). *)
Inductive wstate : Type :=
| Awaiting
| Returned
| Threw (reason : string).

Definition is_returned (w : wstate) : bool :=
  match w with Returned => true | _ => false end.

(** The variables of one call of [runLoadTest].  [calls] counts the calls
    of [makeRequest]; [rejection] is the first rejection [Promise.all] has
    seen; [uncaught] is set when the process has died of an uncaught
    exception. *)
Record pool : Type := {
  requestSent : Z;
  stats : list RequestStat.t;
  workers : list wstate;
  calls : nat;
  rejection : option string;
  uncaught : option string
}.

Definition pool0 : pool :=
  {| requestSent := 0; stats := []; workers := []; calls := 0%nat;
     rejection := None; uncaught := None |}.

Definition set_workers (ws : list wstate) (p : pool) : pool :=
  {| requestSent := requestSent p; stats := stats p; workers := ws;
     calls := calls p; rejection := rejection p; uncaught := uncaught p |}.

(** [stats.push(stat)] *)
Definition push (stat : RequestStat.t) (p : pool) : pool :=
  {| requestSent := requestSent p; stats := stats p ++ [stat];
     workers := workers p; calls := calls p; rejection := rejection p;
     uncaught := uncaught p |}.

(** A worker throws: its promise is rejected, and [Promise.all] keeps the
    first rejection. *)
Definition throw (i : nat) (reason : string) (p : pool) : pool :=
  {| requestSent := requestSent p; stats := stats p;
     workers := <[i := Threw reason]> (workers p); calls := calls p;
     rejection := match rejection p with
                  | Some r => Some r
                  | None => Some reason
                  end;
     uncaught := uncaught p |}.

Definition crash (reason : string) (p : pool) : pool :=
  {| requestSent := requestSent p; stats := stats p; workers := workers p;
     calls := calls p; rejection := rejection p; uncaught := Some reason |}.

Section Pool.

Variable makeRequest : exchange -> completion RequestStat.t.
Variable numRequests : Z.

(** [worker], from the test of its loop to the next [await]:
    [while (requestSent < numRequests) { requestSent++; await makeRequest(...)]
    (part_000 and the first program of part_001 write the same test as
    [if (requestsSent >= numRequests) break]). *)
Definition worker (p : pool) : wstate * pool :=
  if requestSent p <? numRequests then
    (Awaiting,
     {| requestSent := requestSent p + 1; stats := stats p;
        workers := workers p; calls := S (calls p);
        rejection := rejection p; uncaught := uncaught p |})
  else (Returned, p).

(** [workers.push(worker())] *)
Definition launch (p : pool) : pool :=
  let (w, p') := worker p in set_workers (workers p' ++ [w]) p'.

(** [for (let i = 0; i < concurrency; i++) workers.push(worker())] *)
Definition spawn (concurrency : Z) : pool :=
  Nat.iter (Z.to_nat concurrency) launch pool0.

(** The promise awaited by worker [i] is the one of exchange [x]; the
    worker resumes according to what [makeRequest] made of it:
    [const stat = await makeRequest(...); stats.push(stat)] and the loop
    again.  [None]: no such step exists (worker [i] is not waiting, or the
    process has died). *)
Definition resume (p : pool) (ix : nat * exchange) : option pool :=
  let (i, x) := ix in
  match uncaught p, workers p !! i with
  | None, Some Awaiting =>
      match makeRequest x with
      | Fulfilled stat =>
          let (w, p') := worker (push stat p) in
          Some (set_workers (<[i := w]> (workers p')) p')
      | Rejected reason => Some (throw i reason p)
      | Uncaught reason => Some (crash reason p)
      | Pending => Some p
      end
  | _, _ => None
  end.

Fixpoint run (schedule : list (nat * exchange)) (p : pool) : option pool :=
  match schedule with
  | [] => Some p
  | ix :: schedule' =>
      match resume p ix with
      | Some p' => run schedule' p'
      | None => None
      end
  end.

End Pool.

(** [await Promise.all(workers)] *)
Definition join (p : pool) : completion unit :=
  match uncaught p, rejection p with
  | Some reason, _ => Uncaught reason
  | None, Some reason => Rejected reason
  | None, None =>
      if forallb is_returned (workers p) then Fulfilled tt else Pending
  end.

(** The schedule that always lets the first waiting worker resume. *)
Fixpoint first_awaiting (ws : list wstate) : option nat :=
  match ws with
  | [] => None
  | Awaiting :: _ => Some 0%nat
  | _ :: ws' => option_map S (first_awaiting ws')
  end.

Fixpoint fifo (makeRequest : exchange -> completion RequestStat.t)
    (numRequests : Z) (xs : list exchange) (p : pool)
  : list (nat * exchange) :=
  match xs with
  | [] => []
  | x :: xs' =>
      match first_awaiting (workers p) with
      | Some i =>
          (i, x) ::
          match resume makeRequest numRequests p (i, x) with
          | Some p' => fifo makeRequest numRequests xs' p'
          | None => []
          end
      | None => []
      end
  end.

(* ================================================================== *)
(** * The aggregator *)
(* ================================================================== *)

Section Aggregator.

Context {num : Type} `{JSNumber num}.

(** [calcStats] (src/index.ts lines 72-82; part_001 lines 92-102 and
    280-290, the same text): [Math.min(...values)], [Math.max(...values)],
    [values.reduce((acc, v) => acc + v, 0)] and [sum / values.length].
    (The limit an engine puts on the number of spread arguments is not
    modelled.) *)
Definition calcStats (values : list num) : Stats.t num :=
  let min := fold_left num_min values num_infinity in
  let max := fold_left num_max values num_neg_infinity in
  let sum := fold_left num_add values (num_of_Z 0) in
  {| Stats.min := min;
     Stats.max := max;
     Stats.avg := num_div sum (num_of_Z (Z.of_nat (length values))) |}.

(** [x / 1000] for an integer [x] *)
Definition seconds (x : Z) : num := num_div (num_of_Z x) (num_of_Z 1000).

(** [s.statusCode !== undefined && s.statusCode >= 200 && s.statusCode < 300] *)
Definition isSuccess (s : RequestStat.t) : bool :=
  match RequestStat.statusCode s with
  | Some c => (200 <=? c) && (c <? 300)
  | None => false
  end.

Definition is_defined {A} (o : option A) : bool :=
  match o with Some _ => true | None => false end.

(** [stats.filter(s => s.f !== undefined).map(s => (s.f as number) / 1000)] *)
Definition reported (f : RequestStat.t -> option Z)
    (stats : list RequestStat.t) : list num :=
  map (fun s => seconds (default 0 (f s)))
      (List.filter (fun s => is_defined (f s)) stats).

(** [runLoadTest] after the wall-clock span has been computed
    (src/index.ts lines 123-139; part_001 lines 144-157 and 331-347). *)
Definition summarize (numRequests : Z) (totalTestTimeSeconds : num)
    (stats : list RequestStat.t) : Summary.t num :=
  let requestsPerSecond :=
    num_div (num_of_Z numRequests) totalTestTimeSeconds in
  let successCount := Z.of_nat (length (List.filter isSuccess stats)) in
  let failedCount := Z.of_nat (length stats) - successCount in
  let totalTimes := map (fun s => seconds (RequestStat.totalTime s)) stats in
  let ttfbTimes := reported RequestStat.timeToFirstByte stats in
  let ttlbTimes := reported RequestStat.timeToLastByte stats in
  {| Summary.successCount := successCount;
     Summary.failedCount := failedCount;
     Summary.requestsPerSecond := requestsPerSecond;
     Summary.totalTime := calcStats totalTimes;
     Summary.timeToFirstByte := calcStats ttfbTimes;
     Summary.timeToLastByte := calcStats ttlbTimes |}.

End Aggregator.

(** What [runLoadTest] makes of the pool once the schedule has run: it is
    still waiting, or [Promise.all] was rejected and so is [runLoadTest],
    or every worker has returned and [finish] is applied to [stats].  A
    schedule that is not a run of the pool ([None]) settles nothing. *)
Definition after_join {A} (finish : list RequestStat.t -> A)
    (p : option pool) : completion A :=
  match p with
  | Some p =>
      match join p with
      | Fulfilled _ => Fulfilled (finish (stats p))
      | Rejected reason => Rejected reason
      | Uncaught reason => Uncaught reason
      | Pending => Pending
      end
  | None => Pending
  end.

(* ================================================================== *)
(** * src/index.ts *)
(* ================================================================== *)

Module Index.

(** [makeRequest] (lines 30-66): the handlers of ['end'] and ['error'] on
    the response, and the run of an exchange through them. *)
Definition on_end (startTime endTime : Z) (p : probe) : probe :=
  match res p with
  | Some statusCode =>
      let totalTime := endTime - startTime in
      settle (Fulfilled
        {| RequestStat.statusCode := Some (status_or_0 statusCode);
           RequestStat.error := None;
           RequestStat.totalTime := totalTime;
           RequestStat.timeToFirstByte :=
             if_first_byte (firstByteTime p) (fun t => t - startTime);
           RequestStat.timeToLastByte :=
             if_first_byte (firstByteTime p) (fun t => endTime - t) |}) p
  | None => p
  end.

Definition on_error (startTime endTime : Z) (message : string) (p : probe)
  : probe :=
  match res p with
  | Some _ =>
      settle (Fulfilled
        {| RequestStat.statusCode := None;
           RequestStat.error := Some message;
           RequestStat.totalTime := endTime - startTime;
           RequestStat.timeToFirstByte := None;
           RequestStat.timeToLastByte := None |}) p
  | None => p
  end.

(** The request object has no ['error'] listener. *)
Definition handle (startTime : Z) (p : probe) (e : Z * event) : probe :=
  match e with
  | (_, RequestError message) => settle (Uncaught message) p
  | (_, Response statusCode) => on_response statusCode p
  | (now, Data) => match res p with Some _ => on_data now p | None => p end
  | (now, End_) => on_end startTime now p
  | (now, ResponseError message) => on_error startTime now message p
  end.

Definition makeRequest (x : exchange) : completion RequestStat.t :=
  promise (fold_left (handle (startTime x)) (events x) probe0).

(** [runLoadTest], lines 120-139: [testEndTime - testStartTime]. *)
Definition aggregate {num} `{JSNumber num} (numRequests : Z)
    (testStartTime testEndTime : Z) (stats : list RequestStat.t)
  : Summary.t num :=
  let totalTestTimeSeconds := seconds (testEndTime - testStartTime) in
  summarize numRequests totalTestTimeSeconds stats.

(** [runLoadTest] (lines 101-141).  [testStartTime] and [testEndTime] are
    the two readings of the clock, before the workers are launched and
    after [Promise.all]. *)
Definition runLoadTest {num} `{JSNumber num} (numRequests concurrency : Z)
    (testStartTime testEndTime : Z) (schedule : list (nat * exchange))
  : completion (Summary.t num) :=
  after_join (aggregate numRequests testStartTime testEndTime)
    (run makeRequest numRequests schedule (spawn numRequests concurrency)).

End Index.

(* ================================================================== *)
(** * src/unnamed/part_001, lines 189-447 *)
(* ================================================================== *)

Module Part001Repl.

(** [makeRequest] (lines 214-274).  The method, the headers and the body
    go to the transport; the outcome depends on the events only. *)
Definition on_end (startTime endTime : Z) (p : probe) : probe :=
  match res p with
  | Some statusCode =>
      let totalTime := endTime - startTime in
      settle (Fulfilled
        {| RequestStat.statusCode := Some (status_or_0 statusCode);
           RequestStat.error := None;
           RequestStat.totalTime := totalTime;
           RequestStat.timeToFirstByte :=
             if_first_byte (firstByteTime p) (fun t => t - startTime);
           RequestStat.timeToLastByte :=
             if_first_byte (firstByteTime p) (fun t => endTime - t) |}) p
  | None => p
  end.

Definition on_error (startTime endTime : Z) (message : string) (p : probe)
  : probe :=
  match res p with
  | Some statusCode =>
      let totalTime := endTime - startTime in
      settle (Fulfilled
        {| RequestStat.statusCode := Some (status_or_0 statusCode);
           RequestStat.error := Some message;
           RequestStat.totalTime := totalTime;
           RequestStat.timeToFirstByte := None;
           RequestStat.timeToLastByte := None |}) p
  | None => p
  end.

(** [req.on('error', (error) => { ...; reject(error) })] *)
Definition handle (startTime : Z) (p : probe) (e : Z * event) : probe :=
  match e with
  | (_, RequestError message) => settle (Rejected message) p
  | (_, Response statusCode) => on_response statusCode p
  | (now, Data) => match res p with Some _ => on_data now p | None => p end
  | (now, End_) => on_end startTime now p
  | (now, ResponseError message) => on_error startTime now message p
  end.

Definition makeRequest (x : exchange) : completion RequestStat.t :=
  promise (fold_left (handle (startTime x)) (events x) probe0).

(** [runLoadTest] (lines 309-349): [testEndTime - testStartTime]. *)
Definition aggregate {num} `{JSNumber num} (numRequests : Z)
    (testStartTime testEndTime : Z) (stats : list RequestStat.t)
  : Summary.t num :=
  let totalTestTimeSeconds := seconds (testEndTime - testStartTime) in
  summarize numRequests totalTestTimeSeconds stats.

Definition runLoadTest {num} `{JSNumber num} (numRequests concurrency : Z)
    (testStartTime testEndTime : Z) (schedule : list (nat * exchange))
  : completion (Summary.t num) :=
  after_join (aggregate numRequests testStartTime testEndTime)
    (run makeRequest numRequests schedule (spawn numRequests concurrency)).

End Part001Repl.

(* ================================================================== *)
(** * The command-line programs *)
(* ================================================================== *)

(** What a command-line program has written when it is done: the outcome of
    the single request (["Estatísticas da requisição:"]), the failure of the
    single request (['Falha na requisição:']), the outcomes of a run
    (["Estatísticas de cada requisição:"]) or the summary of a run
    (["Results:"]).  The values are the ones handed to [console.log], before
    any [toFixed]. *)
Inductive output (num : Type) : Type :=
| RequestReport (stat : RequestStat.t)
| RequestFailure (reason : string)
| RunReport (stats : list RequestStat.t)
| SummaryReport (summary : Summary.t num).
Arguments RequestReport {num} _.
Arguments RequestFailure {num} _.
Arguments RunReport {num} _.
Arguments SummaryReport {num} _.

(** [makeRequest(targetUrl).then(...).catch(...)] on the first exchange of
    the schedule. *)
Definition single_request {num}
    (makeRequest : exchange -> completion RequestStat.t)
    (schedule : list (nat * exchange)) : completion (output num) :=
  match schedule with
  | (_, x) :: _ =>
      match makeRequest x with
      | Fulfilled stat => Fulfilled (RequestReport stat)
      | Rejected reason => Fulfilled (RequestFailure reason)
      | Uncaught reason => Uncaught reason
      | Pending => Pending
      end
  | [] => Pending
  end.

(** ** src/unnamed/part_000 *)

Module Part000.

(** [makeRequest] (lines 51-86): [timeToLastByte: endTime - startTime]. *)
Definition on_end (startTime endTime : Z) (p : probe) : probe :=
  match res p with
  | Some statusCode =>
      let totalTime := endTime - startTime in
      settle (Fulfilled
        {| RequestStat.statusCode := Some (status_or_0 statusCode);
           RequestStat.error := None;
           RequestStat.totalTime := totalTime;
           RequestStat.timeToFirstByte :=
             if_first_byte (firstByteTime p) (fun t => t - startTime);
           RequestStat.timeToLastByte := Some (endTime - startTime) |}) p
  | None => p
  end.

Definition on_error (startTime endTime : Z) (message : string) (p : probe)
  : probe :=
  match res p with
  | Some _ =>
      settle (Fulfilled
        {| RequestStat.statusCode := None;
           RequestStat.error := Some message;
           RequestStat.totalTime := endTime - startTime;
           RequestStat.timeToFirstByte := None;
           RequestStat.timeToLastByte := None |}) p
  | None => p
  end.

(** The request object has no ['error'] listener. *)
Definition handle (startTime : Z) (p : probe) (e : Z * event) : probe :=
  match e with
  | (_, RequestError message) => settle (Uncaught message) p
  | (_, Response statusCode) => on_response statusCode p
  | (now, Data) => match res p with Some _ => on_data now p | None => p end
  | (now, End_) => on_end startTime now p
  | (now, ResponseError message) => on_error startTime now message p
  end.

Definition makeRequest (x : exchange) : completion RequestStat.t :=
  promise (fold_left (handle (startTime x)) (events x) probe0).

(** [runLoadTest] (lines 95-137): the pool, then the outcomes are printed.
    ([statusCounts] is filled and never read.) *)
Definition runLoadTest {num} (numRequests concurrency : Z)
    (schedule : list (nat * exchange)) : completion (output num) :=
  after_join RunReport
    (run makeRequest numRequests schedule (spawn numRequests concurrency)).

(** Lines 138-157:
    [if (numRequests === 1 && concurrency === 1) { makeRequest(targetUrl)... }
     else { runLoadTest() }] *)
Definition main {num} (numRequests concurrency : Z)
    (schedule : list (nat * exchange)) : completion (output num) :=
  if (numRequests =? 1) && (concurrency =? 1)
  then single_request makeRequest schedule
  else runLoadTest numRequests concurrency schedule.

End Part000.

(** ** src/unnamed/part_001, lines 1-188 *)

Module Part001Cli.

(** [makeRequest] (lines 51-86) is the text of part_000, character for
    character. *)
Definition makeRequest : exchange -> completion RequestStat.t :=
  Part000.makeRequest.

(** [runLoadTest], lines 141-157: [testStartTime - totalEndTime]. *)
Definition aggregate {num} `{JSNumber num} (numRequests : Z)
    (testStartTime totalEndTime : Z) (stats : list RequestStat.t)
  : Summary.t num :=
  let totalTestTimeSeconds := seconds (testStartTime - totalEndTime) in
  summarize numRequests totalTestTimeSeconds stats.

(** [runLoadTest] (lines 112-168): the pool, then the summary is printed. *)
Definition runLoadTest {num} `{JSNumber num} (numRequests concurrency : Z)
    (testStartTime totalEndTime : Z) (schedule : list (nat * exchange))
  : completion (output num) :=
  after_join
    (fun stats =>
       SummaryReport (aggregate numRequests testStartTime totalEndTime stats))
    (run makeRequest numRequests schedule (spawn numRequests concurrency)).

(** Lines 169-188, the same dispatch as in part_000. *)
Definition main {num} `{JSNumber num} (numRequests concurrency : Z)
    (testStartTime totalEndTime : Z) (schedule : list (nat * exchange))
  : completion (output num) :=
  if (numRequests =? 1) && (concurrency =? 1)
  then single_request makeRequest schedule
  else runLoadTest numRequests concurrency testStartTime totalEndTime schedule.

End Part001Cli.

(* ================================================================== *)
(** * Invariant of the worker pool *)
(* ================================================================== *)

Definition is_awaiting (w : wstate) : bool :=
  match w with Awaiting => true | _ => false end.

Definition is_threw (w : wstate) : bool :=
  match w with Threw _ => true | _ => false end.

Definition count (f : wstate -> bool) (ws : list wstate) : nat :=
  length (List.filter f ws).

Definition b2n (b : bool) : nat := if b then 1%nat else 0%nat.

(** Every call of [makeRequest] is accounted for: its outcome is in [stats],
    or a worker still awaits it, or it made a worker throw; and a worker
    returns only when the counter has reached [numRequests]. *)
Record inv (numRequests : Z) (p : pool) : Prop := {
  inv_bound : 0 <= requestSent p <= numRequests;
  inv_calls : Z.of_nat (calls p) = requestSent p;
  inv_account :
    Z.of_nat (length (stats p) + count is_awaiting (workers p)
              + count is_threw (workers p)) = requestSent p;
  inv_returned :
    (0 < count is_returned (workers p))%nat -> requestSent p = numRequests
}.

(** No worker has thrown and the process is alive. *)
Record clean (p : pool) : Prop := {
  clean_rejection : rejection p = None;
  clean_uncaught : uncaught p = None;
  clean_threw : count is_threw (workers p) = 0%nat
}.

Definition all_fulfilled (makeRequest : exchange -> completion RequestStat.t)
    (schedule : list (nat * exchange)) : bool :=
  forallb (fun ix => is_fulfilled (makeRequest (snd ix))) schedule.

(** The outcomes of the exchanges, in the order of the list. *)
Definition outcomes (makeRequest : exchange -> completion RequestStat.t)
    (xs : list exchange) : list RequestStat.t :=
  omap (fun x => match makeRequest x with
                 | Fulfilled stat => Some stat
                 | _ => None
                 end) xs.

(* ================================================================== *)
(** * Sample exchanges *)
(* ================================================================== *)

(** A response with a body: the headers and the first chunk at
    [firstByte], the end of the stream at [endTime]. *)
Definition served (startTime firstByte endTime status : Z) : exchange :=
  {| startTime := startTime;
     events := [(firstByte, Response (Some status)); (firstByte, Data);
                (endTime, Data); (endTime, End_)] |}.


(** The headers and one chunk arrive, then the stream errors. *)
Definition cut (startTime firstByte failTime status : Z) : exchange :=
  {| startTime := startTime;
     events := [(firstByte, Response (Some status)); (firstByte, Data);
                (failTime, ResponseError "aborted")] |}.

(** Three requests of a tenth of a second each, two of them successful,
    run by two workers. *)
Definition three_tenths : list (nat * exchange) :=
  [(0%nat, served 1000 1100 1100 200);
   (1%nat, served 1000 1100 1100 200);
   (0%nat, served 1100 1200 1200 500)].

(* ================================================================== *)
(** * Properties of outcomes and of statistics *)
(* ================================================================== *)

(** The optional timings of an outcome built on ['end'], given the value
    of [firstByteTime] at that moment. *)
Definition byte_timings (startTime endTime : Z) (first : option Z)
    (s : RequestStat.t) : Prop :=
  RequestStat.timeToFirstByte s
    = if_first_byte first (fun t => t - startTime) /\
  RequestStat.timeToLastByte s = if_first_byte first (fun t => endTime - t).

(** What an outcome of [Index.makeRequest] looks like, and where it comes
    from: the response callback has run, and either the stream ended, or it
    failed.  [first] is [firstByteTime], the time of a ['data'] event. *)
Definition index_outcome (x : exchange) (s : RequestStat.t) : Prop :=
  exists t sc,
    In (t, Response sc) (events x) /\
    ((exists endTime first,
        In (endTime, End_) (events x) /\
        (forall t1, first = Some t1 -> In (t1, Data) (events x)) /\
        RequestStat.statusCode s = Some (status_or_0 sc) /\
        RequestStat.error s = None /\
        RequestStat.totalTime s = endTime - startTime x /\
        byte_timings (startTime x) endTime first s)
     \/
     (exists endTime message,
        In (endTime, ResponseError message) (events x) /\
        RequestStat.statusCode s = None /\
        RequestStat.error s = Some message /\
        RequestStat.totalTime s = endTime - startTime x /\
        RequestStat.timeToFirstByte s = None /\
        RequestStat.timeToLastByte s = None)).

(** The same for [Part001Repl.makeRequest]: the outcome of a failed stream
    carries the status as well. *)
Definition repl_outcome (x : exchange) (s : RequestStat.t) : Prop :=
  exists t sc,
    In (t, Response sc) (events x) /\
    RequestStat.statusCode s = Some (status_or_0 sc) /\
    ((exists endTime first,
        In (endTime, End_) (events x) /\
        (forall t1, first = Some t1 -> In (t1, Data) (events x)) /\
        RequestStat.error s = None /\
        RequestStat.totalTime s = endTime - startTime x /\
        byte_timings (startTime x) endTime first s)
     \/
     (exists endTime message,
        In (endTime, ResponseError message) (events x) /\
        RequestStat.error s = Some message /\
        RequestStat.totalTime s = endTime - startTime x /\
        RequestStat.timeToFirstByte s = None /\
        RequestStat.timeToLastByte s = None)).

(** The same for [Part000.makeRequest]: [timeToLastByte] is always set on
    ['end'], to the total time. *)
Definition part000_outcome (x : exchange) (s : RequestStat.t) : Prop :=
  exists t sc,
    In (t, Response sc) (events x) /\
    ((exists endTime first,
        In (endTime, End_) (events x) /\
        RequestStat.statusCode s = Some (status_or_0 sc) /\
        RequestStat.error s = None /\
        RequestStat.totalTime s = endTime - startTime x /\
        RequestStat.timeToFirstByte s
          = if_first_byte first (fun t => t - startTime x) /\
        RequestStat.timeToLastByte s = Some (endTime - startTime x))
     \/
     (exists endTime message,
        In (endTime, ResponseError message) (events x) /\
        RequestStat.statusCode s = None /\
        RequestStat.error s = Some message /\
        RequestStat.totalTime s = endTime - startTime x /\
        RequestStat.timeToFirstByte s = None /\
        RequestStat.timeToLastByte s = None)).

(** [timeToFirstByte + timeToLastByte == totalTime] when both are present. *)
Definition first_plus_last_is_total (s : RequestStat.t) : Prop :=
  forall a b,
    RequestStat.timeToFirstByte s = Some a ->
    RequestStat.timeToLastByte s = Some b ->
    a + b = RequestStat.totalTime s.

(** [min <= mean <= max] *)
Definition ordered {num} `{JSNumber num} (g : Stats.t num) : bool :=
  num_leb (Stats.min g) (Stats.avg g) && num_leb (Stats.avg g) (Stats.max g).

(** No NaN and no infinity among the three values. *)
Definition all_finite {num} `{JSNumber num} (g : Stats.t num) : bool :=
  num_is_finite (Stats.min g) && num_is_finite (Stats.max g)
  && num_is_finite (Stats.avg g).

(** None of the values is NaN. *)
Definition no_nan (values : list float) : bool :=
  forallb (fun v => negb (is_nan v)) values.


(* ================================================================== *)
(** * Further notions for the probers and the pool *)
(* ================================================================== *)

(** The three texts of [makeRequest]. *)
Definition probers : list (exchange -> completion RequestStat.t) :=
  [Index.makeRequest; Part001Repl.makeRequest; Part000.makeRequest].


(** Neither the request nor the response reports an error. *)
Definition no_error (e : Z * event) : bool :=
  match snd e with
  | RequestError _ | ResponseError _ => false
  | _ => true
  end.

(** The clock does not go backwards: the readings of [Date.now()] along an
    exchange, from the reading [t] on. *)
Fixpoint nondecreasing (t : Z) (evs : list (Z * event)) : bool :=
  match evs with
  | [] => true
  | (t', _) :: evs' => (t <=? t') && nondecreasing t' evs'
  end.

(** The timings of an outcome lie between 0 and the total time. *)
Definition timings_within_total (s : RequestStat.t) : Prop :=
  0 <= RequestStat.totalTime s /\
  (forall a, RequestStat.timeToFirstByte s = Some a ->
             0 <= a <= RequestStat.totalTime s) /\
  (forall b, RequestStat.timeToLastByte s = Some b ->
             0 <= b <= RequestStat.totalTime s).



(** The requests in flight: the workers suspended at their [await]. *)
Definition in_flight (p : pool) : nat := count is_awaiting (workers p).



(* ================================================================== *)
(** * The status counts of the command-line programs *)
(* ================================================================== *)

(** [statusCounts] (part_000 lines 97 and 109-114; part_001 lines 114 and
    127-132): an object used as a map from property keys to counts.  The
    key of an outcome is its status code as a property key (the decimal
    numeral of the integer) or ["error"]. *)
Definition status_key (stat : RequestStat.t) : string :=
  match RequestStat.statusCode stat with
  | Some c => pretty c
  | None => "error"
  end.

(** [statusCounts[key] = (statusCounts[key] || 0) + 1] *)
Definition count_status (statusCounts : gmap string Z)
    (stat : RequestStat.t) : gmap string Z :=
  let key := status_key stat in
  let previous :=
    match statusCounts !! key with
    | Some n => if n =? 0 then 0 else n
    | None => 0
    end in
  <[key := previous + 1]> statusCounts.

(** The worker updates [statusCounts] right after [stats.push(stat)], with
    no [await] in between: whenever the pool is observed, [statusCounts] is
    the tally of [stats] in the order of the pushes. *)
Definition statusCounts_of (stats : list RequestStat.t) : gmap string Z :=
  fold_left count_status stats ∅.

(** The number of outcomes filed under a key. *)
Definition filed_under (key : string) (stats : list RequestStat.t) : Z :=
  Z.of_nat (length (List.filter (fun s => String.eqb (status_key s) key) stats)).

(** The sum of the counts. *)
Definition counted (statusCounts : gmap string Z) : Z :=
  map_fold (fun _ n total => n + total) 0 statusCounts.

(** A count as it is found in the map: absent when it is zero. *)
Definition positive_or_none (n : Z) : option Z :=
  if n =? 0 then None else Some n.

(* ================================================================== *)
(** * The command line of the interactive program of part_001 *)
(* ================================================================== *)

(** A JavaScript string is the sequence of its code units; the strings
    considered here have all their code units below 256 (Rocq's [ascii]). *)

Definition code (c : Ascii.ascii) : N := Ascii.N_of_ascii c.

(** [\s] below 256: tab, line feed, vertical tab, form feed, carriage
    return, space, no-break space. *)
Definition is_space (c : Ascii.ascii) : bool :=
  existsb (N.eqb (code c)) [9; 10; 11; 12; 13; 32; 160]%N.

(** The characters [.] does not match: line feed and carriage return. *)
Definition is_line_terminator (c : Ascii.ascii) : bool :=
  existsb (N.eqb (code c)) [10; 13]%N.

Definition double_quote : Ascii.ascii := Ascii.ascii_of_N 34.
Definition single_quote : Ascii.ascii := Ascii.ascii_of_N 39.

(** A double quote or a single quote, the class of line 400. *)
Definition is_quote (c : Ascii.ascii) : bool :=
  Ascii.eqb c double_quote || Ascii.eqb c single_quote.

(** The lazy [.*?] followed by the closing quote [q], the opening quote
    being read already: the text up to the nearest [q] and what follows
    that [q]; no match when a line terminator or the end of the input comes
    first. *)
Fixpoint closing (q : Ascii.ascii) (s : string) : option (string * string) :=
  match s with
  | EmptyString => None
  | String c s' =>
      if Ascii.eqb c q then Some (EmptyString, s')
      else if is_line_terminator c then None
      else match closing q s' with
           | Some (inner, rest) => Some (String c inner, rest)
           | None => None
           end
  end.

(** [\S+]: the longest run of characters that are not white space, and
    what follows it. *)
Fixpoint word (s : string) : string * string :=
  match s with
  | EmptyString => (EmptyString, EmptyString)
  | String c s' =>
      if is_space c then (EmptyString, s)
      else let (w, rest) := word s' in (String c w, rest)
  end.

(** One attempt of the regular expression of line 398 at the head of [s]
    (a text between double quotes, or a text between single quotes, or
    [\S+]): the match and what follows it.  The two quoted alternatives
    come first; they start with different characters, so at most one of
    them applies. *)
Definition match_here (s : string) : option (string * string) :=
  match s with
  | EmptyString => None
  | String c s' =>
      match (if is_quote c then closing c s' else None) with
      | Some (inner, rest) =>
          Some (String c (inner ++ String c EmptyString)%string, rest)
      | None => if is_space c then None else Some (word s)
      end
  end.

(** [input.match(...) || []] with the global flag: the matches from left
    to right, each search starting where the previous match ended, and one
    character further when there is no match at a position.  Every step
    consumes a character, so a fuel of the length of the input is enough. *)
Fixpoint match_all (fuel : nat) (s : string) : list string :=
  match fuel with
  | O => []
  | S fuel' =>
      match s with
      | EmptyString => []
      | String _ s' =>
          match match_here s with
          | Some (token, rest) => token :: match_all fuel' rest
          | None => match_all fuel' s'
          end
      end
  end.

Definition tokens (input : string) : list string :=
  match_all (String.length input) input.

(** The second alternative of the replacement of line 400 (a quote at the
    end of the token): a quote that is the last character is removed. *)
Fixpoint strip_last (t : string) : string :=
  match t with
  | EmptyString => EmptyString
  | String c EmptyString => if is_quote c then EmptyString else t
  | String c t' => String c (strip_last t')
  end.

(** [token.replace(...)] of line 400, with the global flag: a quote that is
    the first character is removed, and then a quote that is the last
    one. *)
Definition strip (token : string) : string :=
  match token with
  | EmptyString => EmptyString
  | String c t' => if is_quote c then strip_last t' else strip_last token
  end.

(** The arguments handed to the option parser (part_001 lines 398-400). *)
Definition arguments (input : string) : list string :=
  map strip (tokens input).

(** An argument as it is typed: a plain word, or a text between two quotes
    of the same kind. *)
Inductive typed : Type :=
| Plain (w : string)
| Quoted (q : Ascii.ascii) (inner : string).

Definition all_chars (f : Ascii.ascii -> bool) (s : string) : bool :=
  forallb f (list_ascii_of_string s).

(** A plain word is not empty and has no white space and no quote; a quoted
    text has neither its own quote nor a line terminator inside. *)
Definition well_typed (a : typed) : bool :=
  match a with
  | Plain w =>
      negb (String.eqb w EmptyString)
      && all_chars (fun c => negb (is_space c) && negb (is_quote c)) w
  | Quoted q inner =>
      is_quote q
      && all_chars (fun c => negb (Ascii.eqb c q)
                             && negb (is_line_terminator c)) inner
  end.

Definition as_typed (a : typed) : string :=
  match a with
  | Plain w => w
  | Quoted q inner => String q (inner ++ String q EmptyString)%string
  end.

Definition meant (a : typed) : string :=
  match a with
  | Plain w => w
  | Quoted _ inner => inner
  end.

(** The characters that are not white space, in order. *)
Definition ink (s : string) : list Ascii.ascii :=
  List.filter (fun c => negb (is_space c)) (list_ascii_of_string s).


(** Where a token can end: at the end of the input or before white space. *)
Definition ends_here (rest : string) : Prop :=
  rest = EmptyString \/ exists c r, rest = String c r /\ is_space c = true.

(* ================================================================== *)
(** * Facts about the worker pool *)
(* ================================================================== *)

Lemma count_app f ws w : count f (ws ++ [w]) = (count f ws + b2n (f w))%nat.
Proof.
  unfold count. rewrite List.filter_app, length_app. simpl.
  destruct (f w); reflexivity.
Qed.

Lemma count_insert f ws : forall i w w',
  ws !! i = Some w ->
  (count f (<[i := w']> ws) + b2n (f w) = count f ws + b2n (f w'))%nat.
Proof.
  unfold count. induction ws as [|a ws IH]; intros [|i] w w' Hi;
    simpl in *; try discriminate.
  - injection Hi as ->. destruct (f w), (f w'); simpl; lia.
  - specialize (IH i w w' Hi). destruct (f a); simpl; lia.
Qed.

Lemma count_partition ws :
  (count is_awaiting ws + count is_threw ws + count is_returned ws
   = length ws)%nat.
Proof.
  unfold count. induction ws as [|[| |r] ws IH]; simpl; lia.
Qed.

Lemma forallb_returned ws :
  forallb is_returned ws = true <->
  count is_awaiting ws = 0%nat /\ count is_threw ws = 0%nat.
Proof.
  unfold count. induction ws as [|[| |r] ws IH]; simpl; try tauto.
  - split; [discriminate | intros [? _]; discriminate].
  - split; [discriminate | intros [_ ?]; discriminate].
Qed.

Lemma first_awaiting_spec ws :
  (0 < count is_awaiting ws)%nat ->
  exists i, first_awaiting ws = Some i /\ ws !! i = Some Awaiting.
Proof.
  unfold count. induction ws as [|[| |r] ws IH]; simpl; intros Hpos.
  - lia.
  - exists 0%nat. split; reflexivity.
  - destruct (IH Hpos) as (i & -> & Hi). exists (S i). split; auto.
  - destruct (IH Hpos) as (i & -> & Hi). exists (S i). split; auto.
Qed.

Section PoolFacts.

Variable makeRequest : exchange -> completion RequestStat.t.
Variable numRequests : Z.
Hypothesis numRequests_nonneg : 0 <= numRequests.

Lemma pool0_inv : inv numRequests pool0.
Proof. split; unfold count; simpl; lia. Qed.

Lemma launch_inv p : inv numRequests p -> inv numRequests (launch numRequests p).
Proof.
  intros [Hb Hc Ha Hr]. unfold launch, worker.
  destruct (Z.ltb_spec (requestSent p) numRequests) as [Hlt|Hge];
    split; simpl; rewrite ?count_app; simpl; intros; lia.
Qed.

Lemma launch_length p :
  length (workers (launch numRequests p)) = S (length (workers p)).
Proof.
  unfold launch, worker.
  destruct (requestSent p <? numRequests); simpl; rewrite length_app;
    simpl; lia.
Qed.

Lemma launch_clean p : clean p -> clean (launch numRequests p).
Proof.
  intros [Hr Hu Ht]. unfold launch, worker.
  destruct (requestSent p <? numRequests); split; simpl;
    rewrite ?count_app; simpl; auto; lia.
Qed.

Lemma launch_stats p : stats (launch numRequests p) = stats p.
Proof.
  unfold launch, worker. destruct (requestSent p <? numRequests); reflexivity.
Qed.

Lemma iter_launch_facts k :
  let p := Nat.iter k (launch numRequests) pool0 in
  inv numRequests p /\ clean p /\ length (workers p) = k /\ stats p = [].
Proof.
  induction k as [|k (Hi & Hc & Hl & Hs)]; simpl.
  - split; [apply pool0_inv|]. split; [|split; reflexivity].
    split; reflexivity.
  - split; [apply launch_inv, Hi|]. split; [apply launch_clean, Hc|].
    split; [rewrite launch_length, Hl; reflexivity|].
    rewrite launch_stats. exact Hs.
Qed.

Lemma spawn_facts concurrency :
  let p := spawn numRequests concurrency in
  inv numRequests p /\ clean p /\
  length (workers p) = Z.to_nat concurrency /\ stats p = [].
Proof. apply iter_launch_facts. Qed.

Lemma resume_inv p ix p' :
  inv numRequests p -> resume makeRequest numRequests p ix = Some p' ->
  inv numRequests p' /\ length (workers p') = length (workers p).
Proof.
  intros [Hb Hc Ha Hr] Hres. destruct ix as [i x]. unfold resume in Hres.
  destruct (uncaught p); [discriminate|].
  destruct (workers p !! i) as [[| |r]|] eqn:Hi; try discriminate.
  pose proof (count_insert is_awaiting _ _ _ Awaiting Hi) as HA1.
  pose proof (count_insert is_awaiting _ _ _ Returned Hi) as HA2.
  pose proof (count_insert is_threw _ _ _ Awaiting Hi) as HT1.
  pose proof (count_insert is_threw _ _ _ Returned Hi) as HT2.
  pose proof (count_insert is_returned _ _ _ Awaiting Hi) as HR1.
  simpl in *.
  destruct (makeRequest x) as [|stat|reason|reason].
  - injection Hres as <-. split; [split|]; auto.
  - unfold worker in Hres. simpl in Hres.
    destruct (Z.ltb_spec (requestSent p) numRequests) as [Hlt|Hge];
      injection Hres as <-; simpl; rewrite length_insert;
      (split; [split|reflexivity]); simpl; rewrite ?length_app; simpl;
      intros; lia.
  - injection Hres as <-. simpl. rewrite length_insert.
    pose proof (count_insert is_awaiting _ _ _ (Threw reason) Hi) as HA3.
    pose proof (count_insert is_threw _ _ _ (Threw reason) Hi) as HT3.
    pose proof (count_insert is_returned _ _ _ (Threw reason) Hi) as HR3.
    simpl in *.
    split; [split|reflexivity]; simpl; intros; lia.
  - injection Hres as <-. split; [split|]; auto.
Qed.

Lemma run_inv schedule : forall p p',
  inv numRequests p -> run makeRequest numRequests schedule p = Some p' ->
  inv numRequests p' /\ length (workers p') = length (workers p).
Proof.
  induction schedule as [|ix schedule IH]; simpl; intros p p' Hinv Hrun.
  - injection Hrun as <-. auto.
  - destruct (resume makeRequest numRequests p ix) as [q|] eqn:Hres;
      [|discriminate].
    destruct (resume_inv _ _ _ Hinv Hres) as [Hq Hlen].
    destruct (IH _ _ Hq Hrun) as [Hp' Hlen']. split; [assumption|congruence].
Qed.

(** A resumed worker whose exchange is fulfilled adds its outcome. *)
Lemma resume_fulfilled p i x p' :
  clean p -> resume makeRequest numRequests p (i, x) = Some p' ->
  is_fulfilled (makeRequest x) = true ->
  clean p' /\ stats p' = stats p ++ outcomes makeRequest [x].
Proof.
  intros [Hr Hu Ht] Hres Hf. unfold resume in Hres. unfold outcomes. simpl.
  rewrite Hu in Hres.
  destruct (workers p !! i) as [[| |r]|] eqn:Hi; try discriminate.
  destruct (makeRequest x) as [|stat|reason|reason]; try discriminate.
  pose proof (count_insert is_threw _ _ _ Awaiting Hi) as HT1.
  pose proof (count_insert is_threw _ _ _ Returned Hi) as HT2.
  unfold worker in Hres. simpl in *.
  destruct (requestSent p <? numRequests); injection Hres as <-;
    (split; [split|]); simpl; auto; lia.
Qed.

Lemma run_fulfilled schedule : forall p p',
  clean p -> run makeRequest numRequests schedule p = Some p' ->
  all_fulfilled makeRequest schedule = true ->
  clean p' /\
  stats p' = stats p ++ outcomes makeRequest (map snd schedule).
Proof.
  induction schedule as [|[i x] schedule IH]; intros p p' Hc Hrun Hall;
    cbn [run map snd] in *.
  - injection Hrun as <-. unfold outcomes. simpl. rewrite app_nil_r. auto.
  - unfold all_fulfilled in Hall. cbn [forallb snd] in Hall.
    apply andb_true_iff in Hall as [Hx Hall].
    destruct (resume makeRequest numRequests p (i, x)) as [q|] eqn:Hres;
      [|discriminate].
    destruct (resume_fulfilled _ _ _ _ Hc Hres Hx) as [Hq Hsq].
    destruct (IH _ _ Hq Hrun Hall) as [Hp' Hsp']. split; [assumption|].
    rewrite Hsp', Hsq. unfold outcomes. simpl.
    destruct (makeRequest x); try discriminate. simpl.
    rewrite <- app_assoc. reflexivity.
Qed.

Lemma outcomes_length xs :
  forallb (fun x => is_fulfilled (makeRequest x)) xs = true ->
  length (outcomes makeRequest xs) = length xs.
Proof.
  unfold outcomes. induction xs as [|x xs IH]; simpl; [reflexivity|].
  intros Hall. apply andb_true_iff in Hall as [Hx Hall].
  destruct (makeRequest x); try discriminate.
  cbn [length]. f_equal. apply IH, Hall.
Qed.

Lemma all_fulfilled_snd schedule :
  all_fulfilled makeRequest schedule =
  forallb (fun x => is_fulfilled (makeRequest x)) (map snd schedule).
Proof.
  unfold all_fulfilled. induction schedule as [|ix s IH]; simpl; congruence.
Qed.

End PoolFacts.

Section PoolProgress.

Variable makeRequest : exchange -> completion RequestStat.t.
Variable numRequests : Z.
Hypothesis numRequests_nonneg : 0 <= numRequests.

(** While outcomes are missing, some worker is waiting for one. *)
Lemma some_worker_awaits p :
  inv numRequests p -> clean p -> (0 < length (workers p))%nat ->
  Z.of_nat (length (stats p)) < numRequests ->
  (0 < count is_awaiting (workers p))%nat.
Proof.
  intros [Hb Hc Ha Hr] [_ _ Ht] Hlen Hlt.
  pose proof (count_partition (workers p)) as Hpart.
  destruct (count is_awaiting (workers p)) as [|k] eqn:Hk; [|lia].
  exfalso. assert (requestSent p = numRequests) by (apply Hr; lia). lia.
Qed.

Lemma resume_awaiting_fulfilled p i x :
  clean p -> workers p !! i = Some Awaiting ->
  is_fulfilled (makeRequest x) = true ->
  exists p', resume makeRequest numRequests p (i, x) = Some p'.
Proof.
  intros [_ Hu _] Hi Hx. unfold resume. rewrite Hu, Hi.
  destruct (makeRequest x); try discriminate.
  destruct (worker numRequests (push value p)). eauto.
Qed.

(** The first-waiting-worker schedule runs any supply of exchanges that
    does not exceed the work left. *)
Lemma fifo_runs xs : forall p,
  inv numRequests p -> clean p -> (0 < length (workers p))%nat ->
  Z.of_nat (length (stats p)) + Z.of_nat (length xs) <= numRequests ->
  forallb (fun x => is_fulfilled (makeRequest x)) xs = true ->
  exists p',
    run makeRequest numRequests (fifo makeRequest numRequests xs p) p = Some p'
    /\ map snd (fifo makeRequest numRequests xs p) = xs.
Proof.
  induction xs as [|x xs IH]; intros p Hinv Hclean Hlen Hroom Hall;
    cbn [fifo].
  - exists p. split; reflexivity.
  - cbn [forallb length] in *. apply andb_true_iff in Hall as [Hx Hall].
    destruct (first_awaiting_spec (workers p)) as (i & -> & Hi).
    { apply some_worker_awaits; auto. lia. }
    destruct (resume_awaiting_fulfilled p i x Hclean Hi Hx) as [q Hq].
    rewrite Hq. cbn [run map snd]. rewrite Hq.
    destruct (resume_inv makeRequest numRequests _ _ _ Hinv Hq) as [Hqi Hql].
    destruct (resume_fulfilled makeRequest numRequests _ _ _ _ Hclean Hq Hx)
      as [Hqc Hqs].
    destruct (IH q) as (p' & Hrun & Hmap); auto.
    + lia.
    + rewrite Hqs, length_app.
      rewrite (outcomes_length makeRequest [x]) by (simpl; rewrite Hx; auto).
      simpl. lia.
    + exists p'. split; [exact Hrun|]. rewrite Hmap. reflexivity.
Qed.

(** The pool right after the loop that launches the workers: the first
    [numRequests] workers have each claimed one request, the others have
    found none and returned. *)
Lemma iter_launch_shape k :
  let p := Nat.iter k (launch numRequests) pool0 in
  let n := Z.to_nat numRequests in
  requestSent p = Z.of_nat (Nat.min k n) /\
  calls p = Nat.min k n /\
  workers p = replicate (Nat.min k n) Awaiting ++ replicate (k - n) Returned.
Proof.
  induction k as [|k (Hrs & Hcalls & Hws)]; cbn zeta in *.
  - simpl. repeat split; try reflexivity.
  - set (p := Nat.iter k (launch numRequests) pool0) in *.
    change (Nat.iter (S k) (launch numRequests) pool0)
      with (launch numRequests p).
    unfold launch, worker. rewrite Hrs.
    destruct (Z.ltb_spec (Z.of_nat (Nat.min k (Z.to_nat numRequests)))
                numRequests) as [Hlt|Hge];
      cbn [requestSent calls workers set_workers].
    + assert (k < Z.to_nat numRequests)%nat as Hk by lia.
      replace (Nat.min (S k) (Z.to_nat numRequests)) with (S k) by lia.
      replace (Nat.min k (Z.to_nat numRequests)) with k in * by lia.
      replace (S k - Z.to_nat numRequests)%nat with 0%nat by lia.
      replace (k - Z.to_nat numRequests)%nat with 0%nat in Hws by lia.
      rewrite Hcalls, Hws. cbn [replicate]. rewrite !app_nil_r.
      repeat split; try lia. rewrite <- replicate_S_end. reflexivity.
    + assert (Z.to_nat numRequests <= k)%nat as Hk by lia.
      replace (Nat.min (S k) (Z.to_nat numRequests))
        with (Z.to_nat numRequests) by lia.
      replace (Nat.min k (Z.to_nat numRequests))
        with (Z.to_nat numRequests) in * by lia.
      replace (S k - Z.to_nat numRequests)%nat
        with (S (k - Z.to_nat numRequests)) by lia.
      rewrite Hcalls, Hws. repeat split; try lia.
      rewrite replicate_S_end, app_assoc. reflexivity.
Qed.

End PoolProgress.

(* ================================================================== *)
(** * The dispatcher *)
(* ================================================================== *)

Lemma joined_all_returned p :
  join p = Fulfilled tt ->
  clean p /\ count is_awaiting (workers p) = 0%nat.
Proof.
  unfold join. destruct (uncaught p) eqn:Hu; [discriminate|].
  destruct (rejection p) eqn:Hr; [discriminate|].
  destruct (forallb is_returned (workers p)) eqn:Hall; [|discriminate].
  intros _. apply forallb_returned in Hall as [Ha Ht].
  split; [split|]; assumption.
Qed.

Lemma all_returned_joined p :
  clean p -> count is_awaiting (workers p) = 0%nat -> join p = Fulfilled tt.
Proof.
  intros [Hr Hu Ht] Ha. unfold join. rewrite Hu, Hr.
  rewrite (proj2 (forallb_returned (workers p))); auto.
Qed.

(** A complete run has called the prober [numRequests] times and holds
    [numRequests] outcomes. *)
Lemma completed_run (makeRequest : exchange -> completion RequestStat.t)
    (numRequests concurrency : Z) schedule p :
  0 < numRequests -> 0 < concurrency ->
  run makeRequest numRequests schedule (spawn numRequests concurrency)
    = Some p ->
  join p = Fulfilled tt ->
  Z.of_nat (calls p) = numRequests /\
  Z.of_nat (length (stats p)) = numRequests.
Proof.
  intros Hn Hc Hrun Hjoin.
  assert (0 <= numRequests) as Hn0 by lia.
  destruct (spawn_facts numRequests Hn0 concurrency) as (Hinv & _ & Hlen & _).
  destruct (run_inv makeRequest numRequests _ _ _ Hinv Hrun)
    as [[Hb Hcalls Hacc Hret] Hl].
  destruct (joined_all_returned p Hjoin) as [[_ _ Ht] Ha].
  pose proof (count_partition (workers p)) as Hpart.
  assert (requestSent p = numRequests) by (apply Hret; lia). lia.
Qed.

(** C1.  With positive [numRequests] and [concurrency], whatever the
    prober and the order in which the requests complete: (1) when
    [Promise.all] is fulfilled, [makeRequest] has been called exactly
    [numRequests] times and [stats] holds exactly [numRequests] outcomes;
    (2) when every exchange is fulfilled, [stats] holds the outcomes of the
    exchanges of the schedule, one each and in the order of completion, and
    the run is complete exactly when [numRequests] exchanges have
    completed; (3) any supply of [numRequests] fulfilled exchanges does lead
    to a complete run; (4) when [concurrency] is at least [numRequests],
    the first [numRequests] workers claim one request each and the surplus
    workers return at once without a call. *)
Theorem dispatcher_exactly_once
    (makeRequest : exchange -> completion RequestStat.t)
    (numRequests concurrency : Z) :
  0 < numRequests -> 0 < concurrency ->
  let start := spawn numRequests concurrency in
  (forall schedule p,
     run makeRequest numRequests schedule start = Some p ->
     join p = Fulfilled tt ->
     Z.of_nat (calls p) = numRequests /\
     Z.of_nat (length (stats p)) = numRequests)
  /\
  (forall schedule p,
     run makeRequest numRequests schedule start = Some p ->
     all_fulfilled makeRequest schedule = true ->
     stats p = outcomes makeRequest (map snd schedule) /\
     (join p = Fulfilled tt <-> Z.of_nat (length schedule) = numRequests))
  /\
  (forall xs,
     Z.of_nat (length xs) = numRequests ->
     forallb (fun x => is_fulfilled (makeRequest x)) xs = true ->
     exists schedule p,
       map snd schedule = xs /\
       run makeRequest numRequests schedule start = Some p /\
       join p = Fulfilled tt /\
       stats p = outcomes makeRequest xs)
  /\
  (numRequests <= concurrency ->
     calls start = Z.to_nat numRequests /\
     workers start =
       replicate (Z.to_nat numRequests) Awaiting ++
       replicate (Z.to_nat (concurrency - numRequests)) Returned).
Proof.
  intros Hn Hc start.
  assert (0 <= numRequests) as Hn0 by lia.
  destruct (spawn_facts numRequests Hn0 concurrency)
    as (Hinv & Hclean & Hlen & Hstats). fold start in Hinv, Hclean, Hlen, Hstats.
  assert (forall schedule p,
            run makeRequest numRequests schedule start = Some p ->
            join p = Fulfilled tt ->
            Z.of_nat (calls p) = numRequests /\
            Z.of_nat (length (stats p)) = numRequests) as Hsafe.
  { intros schedule p Hrun Hjoin.
    apply (completed_run makeRequest numRequests concurrency schedule); auto. }
  assert (forall schedule p,
            run makeRequest numRequests schedule start = Some p ->
            all_fulfilled makeRequest schedule = true ->
            stats p = outcomes makeRequest (map snd schedule) /\
            (join p = Fulfilled tt <->
             Z.of_nat (length schedule) = numRequests)) as Hlive.
  { intros schedule p Hrun Hall.
    destruct (run_fulfilled makeRequest numRequests _ _ _ Hclean Hrun Hall)
      as [Hpc Hps].
    rewrite Hstats in Hps. simpl in Hps. split; [exact Hps|].
    assert (length (stats p) = length schedule) as Hcount.
    { rewrite Hps, outcomes_length, length_map; auto.
      rewrite <- all_fulfilled_snd. exact Hall. }
    split.
    - intros Hjoin. destruct (Hsafe _ _ Hrun Hjoin). lia.
    - intros Hsched.
      destruct (run_inv makeRequest numRequests _ _ _ Hinv Hrun)
        as [[Hb Hcalls Hacc Hret] Hl].
      apply all_returned_joined; [exact Hpc|]. lia. }
  split; [exact Hsafe|]. split; [exact Hlive|]. split.
  - intros xs Hxs Hall.
    destruct (fifo_runs makeRequest numRequests xs start)
      as (p & Hrun & Hmap); auto.
    { lia. }
    { rewrite Hstats. simpl. lia. }
    exists (fifo makeRequest numRequests xs start), p.
    assert (all_fulfilled makeRequest
              (fifo makeRequest numRequests xs start) = true) as Hall'.
    { rewrite all_fulfilled_snd, Hmap. exact Hall. }
    destruct (Hlive _ _ Hrun Hall') as [Hps Hiff].
    split; [exact Hmap|]. split; [exact Hrun|]. split.
    + apply Hiff. rewrite <- (length_map snd), Hmap. exact Hxs.
    + rewrite Hps, Hmap. reflexivity.
  - intros Hle.
    destruct (iter_launch_shape numRequests Hn0 (Z.to_nat concurrency))
      as (_ & Hcalls & Hws).
    fold (spawn numRequests concurrency) in Hcalls, Hws. fold start in Hcalls, Hws.
    replace (Nat.min (Z.to_nat concurrency) (Z.to_nat numRequests))
      with (Z.to_nat numRequests) in * by lia.
    replace (Z.to_nat (concurrency - numRequests))
      with (Z.to_nat concurrency - Z.to_nat numRequests)%nat by lia.
    split; assumption.
Qed.

Lemma dispatcher_exactly_once_witness :
  exists p,
    run Index.makeRequest 3 three_tenths (spawn 3 2) = Some p /\
    join p = Fulfilled tt /\
    Z.of_nat (calls p) = 3 /\ Z.of_nat (length (stats p)) = 3.
Proof.
  eexists. split; [reflexivity|]. split; [reflexivity|].
  apply (proj1 (dispatcher_exactly_once Index.makeRequest 3 2
                  ltac:(lia) ltac:(lia)) three_tenths); reflexivity.
Defined.

(* ================================================================== *)
(** * The counts of the summary *)
(* ================================================================== *)

Lemma isSuccess_iff (s : RequestStat.t) :
  isSuccess s = true <->
  exists c, RequestStat.statusCode s = Some c /\ 200 <= c < 300.
Proof.
  unfold isSuccess. destruct (RequestStat.statusCode s) as [c|].
  - rewrite andb_true_iff, Z.leb_le, Z.ltb_lt. split.
    + intros Hc. exists c. split; [reflexivity | lia].
    + intros (c' & Heq & Hc). injection Heq as ->. lia.
  - split; [discriminate | intros (c & Heq & _); discriminate].
Qed.

Lemma filter_complement {A} (f : A -> bool) (l : list A) :
  (length (List.filter f l) + length (List.filter (fun a => negb (f a)) l)
   = length l)%nat.
Proof. induction l as [|a l IH]; simpl; [|destruct (f a); simpl]; lia. Qed.

Lemma after_join_fulfilled {A} (finish : list RequestStat.t -> A) r a :
  after_join finish r = Fulfilled a ->
  exists p, r = Some p /\ join p = Fulfilled tt /\ a = finish (stats p).
Proof.
  unfold after_join. destruct r as [p|]; [|discriminate].
  destruct (join p) as [|[]|reason|reason] eqn:Hjoin; try discriminate.
  intros Heq. injection Heq as <-. eauto.
Qed.

(** C2.  When [runLoadTest] of src/index.ts returns a summary for positive
    [numRequests] and [concurrency], [successCount + failedCount] is
    [numRequests]; [successCount] counts the outcomes whose [statusCode] is
    present and within [200, 300), [failedCount] is the number of outcomes
    minus [successCount], that is the number of all other outcomes (another
    status, or no status at all). *)
Theorem summary_counts {num : Type} `{JSNumber num}
    (numRequests concurrency testStartTime testEndTime : Z)
    (schedule : list (nat * exchange)) (summary : Summary.t num) :
  0 < numRequests -> 0 < concurrency ->
  Index.runLoadTest numRequests concurrency testStartTime testEndTime schedule
    = Fulfilled summary ->
  Summary.successCount summary + Summary.failedCount summary = numRequests
  /\
  exists p,
    run Index.makeRequest numRequests schedule
      (spawn numRequests concurrency) = Some p /\
    Summary.successCount summary
      = Z.of_nat (length (List.filter isSuccess (stats p))) /\
    Summary.failedCount summary
      = Z.of_nat (length (stats p)) - Summary.successCount summary /\
    Summary.failedCount summary
      = Z.of_nat (length (List.filter (fun s => negb (isSuccess s)) (stats p)))
    /\
    forall s, isSuccess s = true <->
              exists c, RequestStat.statusCode s = Some c /\ 200 <= c < 300.
Proof.
  intros Hn Hc Hrun. unfold Index.runLoadTest in Hrun.
  apply after_join_fulfilled in Hrun as (p & Hp & Hjoin & ->).
  destruct (completed_run _ _ _ _ _ Hn Hc Hp Hjoin) as [_ Hlen].
  pose proof (filter_complement isSuccess (stats p)) as Hcompl.
  unfold Index.aggregate, summarize. cbn [Summary.successCount Summary.failedCount].
  split; [lia|]. exists p. split; [exact Hp|]. split; [reflexivity|].
  split; [reflexivity|]. split; [lia|]. apply isSuccess_iff.
Qed.

Lemma summary_counts_witness :
  exists summary : Summary.t float,
    Index.runLoadTest 3 2 1000 1300 three_tenths = Fulfilled summary /\
    Summary.successCount summary + Summary.failedCount summary = 3.
Proof.
  eexists. split; [vm_compute; reflexivity|].
  apply (summary_counts 3 2 1000 1300 three_tenths);
    [lia | lia | vm_compute; reflexivity].
Defined.

(* ================================================================== *)
(** * The prober *)
(* ================================================================== *)

Lemma fold_left_invariant {A B} (f : A -> B -> A) (I : A -> Prop)
    (l : list B) :
  (forall a b, In b l -> I a -> I (f a b)) ->
  forall a, I a -> I (fold_left f l a).
Proof.
  induction l as [|b l IH]; simpl; intros Hstep a Ha; [exact Ha|].
  apply IH; [|apply Hstep]; auto.
Qed.

Lemma settle_promise c p :
  promise (settle c p)
  = match promise p with Pending => c | settled => settled end.
Proof. unfold settle. destruct (promise p) eqn:E; simpl; congruence. Qed.

Lemma settle_res c p : res (settle c p) = res p.
Proof. unfold settle. destruct (promise p); reflexivity. Qed.

Lemma settle_firstByteTime c p :
  firstByteTime (settle c p) = firstByteTime p.
Proof. unfold settle. destruct (promise p); reflexivity. Qed.

(** Case analysis on one handler step: which event, whether the response
    callback has run, whether the promise is still pending. *)
Create HintDb prober.
#[local] Hint Unfold Index.handle Index.on_end Index.on_error
  Part001Repl.handle Part001Repl.on_end Part001Repl.on_error
  Part000.handle Part000.on_end Part000.on_error
  on_response on_data : prober.

Ltac handler_cases p e :=
  destruct e as [now [message|statusCode| | |message]];
  autounfold with prober;
  destruct (res p) as [sc|] eqn:Hres;
  try destruct (firstByteTime p) as [first|] eqn:Hfirst;
  rewrite ?settle_promise, ?settle_res, ?settle_firstByteTime;
  cbn [promise res firstByteTime];
  destruct (promise p) as [|settled|reason|reason] eqn:Hpromise.

(** The cases in which the step changes nothing that matters. *)
Ltac unchanged Hr Hp :=
  intros; simplify_eq;
  try congruence;
  try (eapply Hr; congruence);
  try (eapply Hp; congruence).

Lemma index_makeRequest_outcome x s :
  Index.makeRequest x = Fulfilled s -> index_outcome x s.
Proof.
  unfold Index.makeRequest.
  set (I := fun p : probe =>
    (forall sc, res p = Some sc -> exists t, In (t, Response sc) (events x))
    /\ (forall t1, firstByteTime p = Some t1 -> In (t1, Data) (events x))
    /\ (forall s, promise p = Fulfilled s -> index_outcome x s)).
  assert (I (fold_left (Index.handle (startTime x)) (events x) probe0))
    as (_ & _ & Hgood); [|intros Hs; apply Hgood, Hs].
  apply fold_left_invariant; [|repeat split; simpl; discriminate].
  intros p e Hin (Hr & Hd & Hp). unfold I.
  handler_cases p e;
    (split; [unchanged Hr Hp|split; [unchanged Hd Hp|unchanged Hr Hp]]).
  all: try (eexists; exact Hin).
  all: try exact Hin.
  all: destruct (Hr _ eq_refl) as [t Ht]; exists t, sc; (split; [exact Ht|]).
  all: try (left; eexists now, _; unfold byte_timings; simpl;
            repeat split; eauto; fail).
  all: right; exists now, message; simpl; auto 10.
Qed.

Lemma repl_makeRequest_outcome x s :
  Part001Repl.makeRequest x = Fulfilled s -> repl_outcome x s.
Proof.
  unfold Part001Repl.makeRequest.
  set (I := fun p : probe =>
    (forall sc, res p = Some sc -> exists t, In (t, Response sc) (events x))
    /\ (forall t1, firstByteTime p = Some t1 -> In (t1, Data) (events x))
    /\ (forall s, promise p = Fulfilled s -> repl_outcome x s)).
  assert (I (fold_left (Part001Repl.handle (startTime x)) (events x) probe0))
    as (_ & _ & Hgood); [|intros Hs; apply Hgood, Hs].
  apply fold_left_invariant; [|repeat split; simpl; discriminate].
  intros p e Hin (Hr & Hd & Hp). unfold I.
  handler_cases p e;
    (split; [unchanged Hr Hp|split; [unchanged Hd Hp|unchanged Hr Hp]]).
  all: try (eexists; exact Hin).
  all: try exact Hin.
  all: destruct (Hr _ eq_refl) as [t Ht]; exists t, sc;
       (split; [exact Ht|split; [reflexivity|]]).
  all: try (left; eexists now, _; unfold byte_timings; simpl;
            repeat split; eauto; fail).
  all: right; exists now, message; simpl; auto 10.
Qed.


Lemma part000_makeRequest_outcome x s :
  Part000.makeRequest x = Fulfilled s -> part000_outcome x s.
Proof.
  unfold Part000.makeRequest.
  set (I := fun p : probe =>
    (forall sc, res p = Some sc -> exists t, In (t, Response sc) (events x))
    /\ (forall s, promise p = Fulfilled s -> part000_outcome x s)).
  assert (I (fold_left (Part000.handle (startTime x)) (events x) probe0))
    as (_ & Hgood); [|intros Hs; apply Hgood, Hs].
  apply fold_left_invariant; [|repeat split; simpl; discriminate].
  intros p e Hin (Hr & Hp). unfold I.
  handler_cases p e; (split; [unchanged Hr Hp|unchanged Hr Hp]).
  all: try (eexists; exact Hin).
  all: destruct (Hr _ eq_refl) as [t Ht]; exists t, sc; (split; [exact Ht|]).
  all: try (left; exists now, (firstByteTime p); rewrite Hfirst; simpl;
            repeat split; eauto; fail).
  all: right; exists now, message; simpl; auto 10.
Qed.

Lemma byte_timings_sum startTime endTime first s :
  RequestStat.totalTime s = endTime - startTime ->
  byte_timings startTime endTime first s -> first_plus_last_is_total s.
Proof.
  intros Htotal [Hf Hl] a b Ha Hb. rewrite Hf in Ha. rewrite Hl in Hb.
  unfold if_first_byte in *. destruct first as [t|]; [|discriminate].
  destruct (t =? 0); [discriminate|]. simplify_eq. lia.
Qed.

(** In src/index.ts the two byte timings add up to the total time. *)
Lemma index_first_plus_last x s :
  Index.makeRequest x = Fulfilled s -> first_plus_last_is_total s.
Proof.
  intros Hs. apply index_makeRequest_outcome in Hs as (t & sc & _ & [H|H]).
  - destruct H as (endTime & first & _ & _ & _ & _ & Htotal & Hbt).
    eapply byte_timings_sum; eauto.
  - destruct H as (endTime & message & _ & _ & _ & _ & Hf & _).
    intros a b Ha. congruence.
Qed.

(** So they do in the interactive program of part_001. *)
Lemma repl_first_plus_last x s :
  Part001Repl.makeRequest x = Fulfilled s -> first_plus_last_is_total s.
Proof.
  intros Hs. apply repl_makeRequest_outcome in Hs as (t & sc & _ & _ & [H|H]).
  - destruct H as (endTime & first & _ & _ & _ & Htotal & Hbt).
    eapply byte_timings_sum; eauto.
  - destruct H as (endTime & message & _ & _ & _ & Hf & _).
    intros a b Ha. congruence.
Qed.

(** In part_000 (and in the first program of part_001, the same text)
    [timeToLastByte] is the total time, so the sum exceeds the total by
    [timeToFirstByte]. *)
Lemma part000_last_is_total x s a b :
  Part000.makeRequest x = Fulfilled s ->
  RequestStat.timeToFirstByte s = Some a ->
  RequestStat.timeToLastByte s = Some b ->
  b = RequestStat.totalTime s /\ a + b = RequestStat.totalTime s + a.
Proof.
  intros Hs Ha Hb.
  apply part000_makeRequest_outcome in Hs as (t & sc & _ & [H|H]).
  - destruct H as (endTime & first & _ & _ & _ & Htotal & _ & Hl).
    rewrite Hl in Hb. simplify_eq. lia.
  - destruct H as (endTime & message & _ & _ & _ & _ & Hf & _). congruence.
Qed.

(** C5.  The claim fails on part_000: for a response whose first byte
    arrives 50 ms after the request was issued and whose last byte arrives
    10 ms later, [makeRequest] reports [timeToFirstByte = 50],
    [timeToLastByte = 60] and [totalTime = 60]: the two byte timings add up
    to 110, not to the total time. *)
Theorem part000_first_plus_last_exceeds_total :
  exists s,
    Part000.makeRequest (served 1000 1050 1060 200) = Fulfilled s /\
    RequestStat.timeToFirstByte s = Some 50 /\
    RequestStat.timeToLastByte s = Some 60 /\
    RequestStat.totalTime s = 60 /\
    ~ first_plus_last_is_total s.
Proof.
  eexists. split; [reflexivity|]. repeat split.
  intros Hsum. specialize (Hsum 50 60 eq_refl eq_refl). discriminate.
Qed.

(** C10.  Every outcome of [makeRequest] in src/index.ts carries exactly
    one of [statusCode] and [error].  It was built on ['end'] of a response
    whose callback had run with status [sc]: then [statusCode] is
    [sc || 0] and there is no [error], and when [sc] is undefined or 0 the
    status is 0 and the aggregator does not count the outcome as a success.
    Or it was built on ['error'] of the response: then [error] is the
    message and there is no [statusCode]. *)
Theorem index_status_xor_error (x : exchange) (s : RequestStat.t) :
  Index.makeRequest x = Fulfilled s ->
  (exists t sc endTime,
     In (t, Response sc) (events x) /\ In (endTime, End_) (events x) /\
     RequestStat.statusCode s = Some (status_or_0 sc) /\
     RequestStat.error s = None /\
     (sc = None \/ sc = Some 0 ->
      RequestStat.statusCode s = Some 0 /\ isSuccess s = false))
  \/
  (exists endTime message,
     In (endTime, ResponseError message) (events x) /\
     RequestStat.statusCode s = None /\
     RequestStat.error s = Some message).
Proof.
  intros Hs. apply index_makeRequest_outcome in Hs as (t & sc & Ht & [H|H]).
  - destruct H as (endTime & first & Hend & _ & Hstatus & Herror & _).
    left. exists t, sc, endTime. repeat split; auto.
    + destruct H as [-> | ->]; exact Hstatus.
    + unfold isSuccess. rewrite Hstatus. destruct H as [-> | ->]; reflexivity.
  - destruct H as (endTime & message & Herr & Hstatus & Herror & _).
    right. exists endTime, message. auto.
Qed.

Lemma index_status_xor_error_witness :
  exists s,
    Index.makeRequest (cut 1000 1050 1060 200) = Fulfilled s /\
    RequestStat.statusCode s = None /\
    RequestStat.error s = Some "aborted"%string.
Proof.
  eexists. split; [reflexivity|].
  destruct (index_status_xor_error (cut 1000 1050 1060 200) _ eq_refl)
    as [(t & sc & endTime & _ & _ & Hstatus & _) | (endTime & message & _ & H)].
  - discriminate Hstatus.
  - split; reflexivity.
Defined.

(** In the interactive program of part_001 every outcome carries a status,
    and an outcome exists only when the response callback has run. *)
Lemma repl_status_iff_response x s :
  Part001Repl.makeRequest x = Fulfilled s ->
  (exists c, RequestStat.statusCode s = Some c) /\
  (exists t sc, In (t, Response sc) (events x)).
Proof.
  intros Hs. apply repl_makeRequest_outcome in Hs as (t & sc & Ht & Hc & _).
  split; eauto.
Qed.

(** C8.  The claim fails on src/index.ts: the headers arrive with status
    200, a chunk is received, then the stream errors; the outcome carries
    the message and no [statusCode], although a response was received.
    ([Part001Repl.makeRequest] keeps the status on the same exchange.) *)
Theorem index_stream_error_drops_status :
  exists s,
    In (1050, Response (Some 200)) (events (cut 1000 1050 1060 200)) /\
    Index.makeRequest (cut 1000 1050 1060 200) = Fulfilled s /\
    RequestStat.statusCode s = None /\
    RequestStat.error s = Some "aborted"%string /\
    exists s',
      Part001Repl.makeRequest (cut 1000 1050 1060 200) = Fulfilled s' /\
      RequestStat.statusCode s' = Some 200 /\
      RequestStat.error s' = Some "aborted"%string.
Proof.
  eexists. split; [left; reflexivity|]. split; [reflexivity|].
  split; [reflexivity|]. split; [reflexivity|].
  eexists. repeat split.
Qed.

(* ================================================================== *)
(** * The statistics in exact arithmetic *)
(* ================================================================== *)

Lemma seconds_exact (z : Z) :
  seconds (num := xnum) z = XFin (inject_Z z / inject_Z 1000).
Proof. reflexivity. Qed.

Lemma fold_add_fin (qs : list Q) : forall a,
  fold_left Exact.add (map XFin qs) (XFin a) = XFin (fold_left Qplus qs a).
Proof. induction qs as [|q qs IH]; intros a; simpl; [reflexivity|apply IH]. Qed.

Lemma fold_min_fin (qs : list Q) : forall a,
  exists m, fold_left Exact.min (map XFin qs) (XFin a) = XFin m /\
            (m <= a)%Q /\ (forall q, In q qs -> (m <= q)%Q).
Proof.
  induction qs as [|q qs IH]; intros a; simpl.
  - exists a. split; [reflexivity|]. split; [apply Qle_refl|tauto].
  - unfold Exact.min at 2. simpl.
    destruct (Qle_bool a q) eqn:Hle; simpl.
    + apply Qle_bool_iff in Hle. destruct (IH a) as (m & -> & Hma & Hall).
      exists m. split; [reflexivity|]. split; [exact Hma|].
      intros q' [<-|Hin]; [lra|auto].
    + assert (q < a)%Q as Hlt.
      { apply Qnot_le_lt. intros H. apply Qle_bool_iff in H. congruence. }
      destruct (IH q) as (m & -> & Hmq & Hall).
      exists m. split; [reflexivity|]. split; [lra|].
      intros q' [<-|Hin]; [lra|auto].
Qed.

Lemma fold_sum_bounds (qs : list Q) (lo hi : Q) : forall a,
  (forall q, In q qs -> lo <= q <= hi)%Q ->
  (a + inject_Z (Z.of_nat (length qs)) * lo <= fold_left Qplus qs a
   <= a + inject_Z (Z.of_nat (length qs)) * hi)%Q.
Proof.
  induction qs as [|q qs IH]; intros a Hall.
  - simpl. change (inject_Z 0) with 0%Q. split; ring_simplify; apply Qle_refl.
  - cbn [fold_left length]. rewrite Nat2Z.inj_succ. unfold Z.succ.
    rewrite inject_Z_plus. change (inject_Z 1) with 1%Q.
    destruct (IH (a + q)%Q) as [H1 H2]; [intros; apply Hall; right; auto|].
    destruct (Hall q) as [H3 H4]; [left; auto|].
    set (k := inject_Z (Z.of_nat (length qs))) in *.
    split; lra.
Qed.

Lemma ordered_fin (m a M : Q) :
  (m <= a <= M)%Q -> ordered (num:=xnum) {| Stats.min := XFin m; Stats.max := XFin M; Stats.avg := XFin a |} = true.
Proof.
  intros [H1 H2]. unfold ordered. simpl. apply andb_true_iff; split; apply Qle_bool_iff; assumption.
Qed.


Lemma fold_max_fin (qs : list Q) : forall a,
  exists m, fold_left Exact.max (map XFin qs) (XFin a) = XFin m /\
            (a <= m)%Q /\ (forall q, In q qs -> (q <= m)%Q).
Proof.
  induction qs as [|q qs IH]; intros a; simpl.
  - exists a. split; [reflexivity|]. split; [apply Qle_refl|tauto].
  - unfold Exact.max at 2. simpl.
    destruct (Qle_bool q a) eqn:Hle; simpl.
    + apply Qle_bool_iff in Hle. destruct (IH a) as (m & -> & Hma & Hall).
      exists m. split; [reflexivity|]. split; [exact Hma|].
      intros q' [<-|Hin]; [lra|auto].
    + assert (a < q)%Q as Hlt.
      { apply Qnot_le_lt. intros H. apply Qle_bool_iff in H. congruence. }
      destruct (IH q) as (m & -> & Hmq & Hall).
      exists m. split; [reflexivity|]. split; [lra|].
      intros q' [<-|Hin]; [lra|auto].
Qed.

Lemma inject_Z_S_pos (n : nat) : (0 < inject_Z (Z.of_nat (S n)))%Q.
Proof. rewrite <- (Zlt_Qlt 0). lia. Qed.

Lemma calcStats_exact_ordered (q : Q) (qs : list Q) :
  ordered (calcStats (map XFin (q :: qs))) = true.
Proof.
  unfold calcStats. cbn [map fold_left num_min num_max num_add num_infinity num_neg_infinity num_of_Z num_div exact_arith].
  change (Exact.min XInf (XFin q)) with (XFin q).
  change (Exact.max XNegInf (XFin q)) with (XFin q).
  change (Exact.add (XFin (inject_Z 0)) (XFin q)) with (XFin (inject_Z 0 + q)).
  destruct (fold_min_fin qs q) as (m & -> & Hmq & Hm).
  destruct (fold_max_fin qs q) as (M & -> & HqM & HM).
  rewrite fold_add_fin. cbn [length]. rewrite length_map.
  pose proof (inject_Z_S_pos (length qs)) as Hpos.
  unfold Exact.div.
  destruct (Qeq_bool (inject_Z (Z.of_nat (S (length qs)))) 0) eqn:Hz.
  { apply Qeq_bool_iff in Hz. lra. }
  destruct (fold_sum_bounds qs m M (inject_Z 0 + q)) as [Hlo Hhi].
  { intros q' Hin. split; auto. }
  rewrite Nat2Z.inj_succ in *. unfold Z.succ in *.
  rewrite inject_Z_plus in *. change (inject_Z 1) with 1%Q in *.
  change (inject_Z 0) with 0%Q in *.
  set (k := inject_Z (Z.of_nat (length qs))) in *.
  set (S := fold_left Qplus qs (0 + q)%Q) in *.
  apply ordered_fin. split.
  - apply Qle_shift_div_l; [exact Hpos|]. lra.
  - apply Qle_shift_div_r; [exact Hpos|]. lra.
Qed.

(* ================================================================== *)
(** * The order of binary64 numbers *)
(* ================================================================== *)

Lemma SFcompare_antisym a b :
  SFcompare b a = option_map CompOpp (SFcompare a b).
Proof.
  destruct a as [sa|sa| |sa ma ea], b as [sb|sb| |sb mb eb]; simpl;
    try reflexivity; try (destruct sa; reflexivity);
    try (destruct sb; reflexivity);
    try (destruct sa, sb; reflexivity).
  destruct sa, sb; try reflexivity;
    rewrite (Z.compare_antisym ea eb);
    destruct (ea ?= eb); simpl; try reflexivity;
    rewrite (Pos.compare_cont_antisym ma mb Eq); simpl;
    rewrite ?CompOpp_involutive; reflexivity.
Qed.

Lemma SFcompare_refl a : a <> S754_nan -> SFcompare a a = Some Eq.
Proof.
  destruct a as [s|s| |s m e]; simpl; intros H; try congruence.
  - destruct s; reflexivity.
  - rewrite Z.compare_refl, Pos.compare_cont_refl. destruct s; reflexivity.
Qed.

Lemma SFleb_trans a b c :
  SFleb a b = true -> SFleb b c = true -> SFleb a c = true.
Proof.
  unfold SFleb.
  destruct a as [sa|sa| |sa ma ea], b as [sb|sb| |sb mb eb],
    c as [sc|sc| |sc mc ec]; simpl;
    try discriminate; try reflexivity;
    try (destruct sa; try discriminate; try reflexivity; fail);
    try (destruct sb; try discriminate; try reflexivity; fail);
    try (destruct sc; try discriminate; try reflexivity; fail);
    try (destruct sa, sb; try discriminate; try reflexivity; fail);
    try (destruct sb, sc; try discriminate; try reflexivity; fail);
    try (destruct sa, sc; try discriminate; try reflexivity; fail);
    try (destruct sa, sb, sc; try discriminate; try reflexivity; fail).
  change (Pos.compare_cont Eq) with Pos.compare.
  destruct sa, sb, sc; try discriminate; try reflexivity;
    destruct (Z.compare_spec ea eb); try discriminate;
    destruct (Z.compare_spec eb ec); try discriminate;
    destruct (Z.compare_spec ea ec); try reflexivity; try lia; subst;
    destruct (Pos.compare_spec ma mb); try discriminate;
    destruct (Pos.compare_spec mb mc); try discriminate;
    destruct (Pos.compare_spec ma mc); try reflexivity; try lia.
Qed.

Lemma not_nan_spec (x : float) : is_nan x = false -> Prim2SF x <> S754_nan.
Proof.
  unfold is_nan. rewrite eqb_spec. intros H Hnan. rewrite Hnan in H.
  discriminate.
Qed.

Lemma b64_leb_refl x : is_nan x = false -> (x <=? x)%float = true.
Proof.
  intros H. rewrite leb_spec. unfold SFleb.
  rewrite SFcompare_refl; [reflexivity|apply not_nan_spec, H].
Qed.

Lemma b64_leb_trans x y z :
  (x <=? y)%float = true -> (y <=? z)%float = true -> (x <=? z)%float = true.
Proof. rewrite !leb_spec. apply SFleb_trans. Qed.

Lemma b64_ltb_leb x y : (x <? y)%float = true -> (x <=? y)%float = true.
Proof.
  rewrite ltb_spec, leb_spec. unfold SFltb, SFleb.
  destruct (SFcompare (Prim2SF x) (Prim2SF y)) as [[| |]|]; congruence.
Qed.

Lemma SFcompare_defined a b :
  a <> S754_nan -> b <> S754_nan -> SFcompare a b <> None.
Proof. destruct a, b; simpl; congruence. Qed.

Lemma b64_not_ltb_leb x y :
  is_nan x = false -> is_nan y = false ->
  (y <? x)%float = false -> (x <=? y)%float = true.
Proof.
  intros Hx Hy. apply not_nan_spec in Hx, Hy.
  rewrite ltb_spec, leb_spec. unfold SFltb, SFleb.
  rewrite (SFcompare_antisym (Prim2SF x) (Prim2SF y)).
  pose proof (SFcompare_defined _ _ Hx Hy) as Hdef.
  destruct (SFcompare (Prim2SF x) (Prim2SF y)) as [[| |]|]; simpl;
    congruence.
Qed.

Lemma b64_zeros_leb number lowest :
  Binary64.is_neg_zero number = true -> Binary64.is_pos_zero lowest = true ->
  (number <=? lowest)%float = true /\ (lowest <=? number)%float = true.
Proof.
  unfold Binary64.is_neg_zero, Binary64.is_pos_zero.
  rewrite !classify_spec, !leb_spec. unfold SF64classify, SFclassify.
  destruct (Prim2SF number) as [[|]|[|]| |[|] m e],
           (Prim2SF lowest) as [[|]|[|]| |[|] m' e'];
    simpl; try discriminate; try (split; reflexivity);
    repeat match goal with
           | |- context [if ?b then _ else _] => destruct b
           end; try discriminate.
Qed.

Lemma b64_min_spec lowest number :
  is_nan lowest = false -> is_nan number = false ->
  is_nan (Binary64.min lowest number) = false /\
  (Binary64.min lowest number <=? lowest)%float = true /\
  (Binary64.min lowest number <=? number)%float = true.
Proof.
  intros Hl Hn. unfold Binary64.min. rewrite Hl, Hn. simpl.
  destruct (Binary64.is_neg_zero number && Binary64.is_pos_zero lowest)
    eqn:Hz.
  - apply andb_true_iff in Hz as [Hz1 Hz2].
    destruct (b64_zeros_leb _ _ Hz1 Hz2) as [H1 _].
    auto using b64_leb_refl.
  - destruct (number <? lowest)%float eqn:Hlt.
    + auto using b64_leb_refl, b64_ltb_leb.
    + auto using b64_leb_refl, b64_not_ltb_leb.
Qed.

Lemma b64_max_spec highest number :
  is_nan highest = false -> is_nan number = false ->
  is_nan (Binary64.max highest number) = false /\
  (highest <=? Binary64.max highest number)%float = true /\
  (number <=? Binary64.max highest number)%float = true.
Proof.
  intros Hh Hn. unfold Binary64.max. rewrite Hh, Hn. simpl.
  destruct (Binary64.is_pos_zero number && Binary64.is_neg_zero highest)
    eqn:Hz.
  - apply andb_true_iff in Hz as [Hz1 Hz2].
    destruct (b64_zeros_leb _ _ Hz2 Hz1) as [H1 _].
    auto using b64_leb_refl.
  - destruct (highest <? number)%float eqn:Hlt.
    + auto using b64_leb_refl, b64_ltb_leb.
    + auto using b64_leb_refl, b64_not_ltb_leb.
Qed.

Lemma b64_fold_min values : forall lowest,
  is_nan lowest = false -> no_nan values = true ->
  let m := fold_left Binary64.min values lowest in
  is_nan m = false /\ (m <=? lowest)%float = true /\
  Forall (fun v => (m <=? v)%float = true) values.
Proof.
  induction values as [|v values IH]; intros lowest Hl Hall; cbn zeta;
    cbn [fold_left].
  - auto using b64_leb_refl.
  - unfold no_nan in Hall. cbn [forallb] in Hall.
    apply andb_true_iff in Hall as [Hv Hall]. apply negb_true_iff in Hv.
    destruct (b64_min_spec lowest v Hl Hv) as (Hn & H1 & H2).
    destruct (IH _ Hn Hall) as (Hm & Hle & Hrest).
    split; [exact Hm|]. split; [eapply b64_leb_trans; eauto|].
    constructor; [eapply b64_leb_trans; eauto|exact Hrest].
Qed.

Lemma b64_fold_max values : forall highest,
  is_nan highest = false -> no_nan values = true ->
  let m := fold_left Binary64.max values highest in
  is_nan m = false /\ (highest <=? m)%float = true /\
  Forall (fun v => (v <=? m)%float = true) values.
Proof.
  induction values as [|v values IH]; intros highest Hh Hall; cbn zeta;
    cbn [fold_left].
  - auto using b64_leb_refl.
  - unfold no_nan in Hall. cbn [forallb] in Hall.
    apply andb_true_iff in Hall as [Hv Hall]. apply negb_true_iff in Hv.
    destruct (b64_max_spec highest v Hh Hv) as (Hn & H1 & H2).
    destruct (IH _ Hn Hall) as (Hm & Hle & Hrest).
    split; [exact Hm|]. split; [eapply b64_leb_trans; eauto|].
    constructor; [eapply b64_leb_trans; eauto|exact Hrest].
Qed.

Lemma b64_min_le_max (values : list float) :
  values <> [] -> no_nan values = true ->
  let g := calcStats values in
  (Stats.min g <=? Stats.max g)%float = true /\
  Forall (fun v => (Stats.min g <=? v)%float = true /\
                   (v <=? Stats.max g)%float = true) values.
Proof.
  intros Hne Hall. cbn zeta. unfold calcStats. cbn [Stats.min Stats.max].
  destruct (b64_fold_min values infinity eq_refl Hall) as (_ & _ & Hmin).
  destruct (b64_fold_max values neg_infinity eq_refl Hall) as (_ & _ & Hmax).
  cbn zeta in Hmin, Hmax.
  assert (Forall (fun v =>
            (fold_left num_min values num_infinity <=? v)%float = true /\
            (v <=? fold_left num_max values num_neg_infinity)%float = true)
            values) as Hboth.
  { apply Forall_and; split; assumption. }
  split; [|exact Hboth].
  destruct values as [|v values]; [congruence|].
  apply Forall_cons in Hboth as [[H1 H2] _]. eapply b64_leb_trans; eauto.
Qed.

(** The values of a metric group are those of the outcomes that report the
    metric, whatever the arithmetic. *)
Lemma reported_omap {num} `{JSNumber num} (f : RequestStat.t -> option Z)
    (stats : list RequestStat.t) :
  reported f stats = map seconds (omap f stats).
Proof.
  unfold reported. induction stats as [|s stats IH]; [reflexivity|].
  cbn [List.filter omap list_omap].
  destruct (f s) as [z|] eqn:Hf; cbn [is_defined map]; rewrite ?Hf, IH;
    reflexivity.
Qed.

Lemma seconds_exact_map (zs : list Z) :
  map (seconds (num := xnum)) zs
  = map XFin (map (fun z => inject_Z z / inject_Z 1000)%Q zs).
Proof. rewrite map_map. reflexivity. Qed.

Lemma calcStats_seconds_ordered (zs : list Z) :
  zs <> [] -> ordered (calcStats (map (seconds (num := xnum)) zs)) = true.
Proof.
  intros Hne. rewrite seconds_exact_map. destruct zs as [|z zs]; [congruence|].
  apply calcStats_exact_ordered.
Qed.

(** C7, amended.  Each of the three metric groups of a summary is
    computed over the outcomes that report the metric (an outcome without
    it contributes nothing), whatever the arithmetic.  On binary64, for
    every non-empty list of values, none of them NaN, [min <= max] and every
    value lies between them.  In exact arithmetic, for every non-empty list
    of timings, [min <= mean <= max]. *)
Theorem min_mean_max_up_to_rounding :
  (forall (num : Type) (arith : JSNumber num) (numRequests : Z) (span : num)
          (stats : list RequestStat.t),
     let s := summarize numRequests span stats in
     Summary.totalTime s
       = calcStats (map seconds (map RequestStat.totalTime stats)) /\
     Summary.timeToFirstByte s
       = calcStats (map seconds (omap RequestStat.timeToFirstByte stats)) /\
     Summary.timeToLastByte s
       = calcStats (map seconds (omap RequestStat.timeToLastByte stats)))
  /\
  (forall values : list float,
     values <> [] -> no_nan values = true ->
     let g := calcStats values in
     (Stats.min g <=? Stats.max g)%float = true /\
     Forall (fun v => (Stats.min g <=? v)%float = true /\
                      (v <=? Stats.max g)%float = true) values)
  /\
  (forall timings : list Z,
     timings <> [] ->
     ordered (calcStats (map (seconds (num := xnum)) timings)) = true).
Proof.
  split; [|split].
  - intros num arith numRequests span stats. cbn zeta. unfold summarize.
    cbn [Summary.totalTime Summary.timeToFirstByte Summary.timeToLastByte].
    rewrite !reported_omap, <- (map_map RequestStat.totalTime seconds).
    repeat split.
  - exact b64_min_le_max.
  - exact calcStats_seconds_ordered.
Qed.

Lemma min_mean_max_up_to_rounding_witness :
  let values := map (seconds (num := float)) [100; 100; 100] in
  (values <> [] /\ no_nan values = true /\
   (Stats.min (calcStats values) <=? Stats.max (calcStats values))%float
     = true)
  /\
  ([100; 100; 100] <> [] /\
   ordered (calcStats (map (seconds (num := xnum)) [100; 100; 100])) = true).
Proof.
  cbn zeta.
  destruct min_mean_max_up_to_rounding as (_ & Hb64 & Hexact).
  split.
  - split; [discriminate|]. split; [reflexivity|].
    apply (Hb64 (map (seconds (num := float)) [100; 100; 100]));
      [discriminate | reflexivity].
  - split; [discriminate|]. apply Hexact. discriminate.
Defined.

(** C7.  On binary64 the claim fails: three requests of 100 ms each give
    the values [0.1; 0.1; 0.1], whose sum is 0.30000000000000004 and whose
    mean 0.10000000000000002 (0x1.999999999999bp-4) is above the maximum
    0.1 (0x1.999999999999ap-4). *)
Lemma binary64_mean_above_max :
  exists s : Summary.t float,
    Index.runLoadTest 3 2 1000 1300 three_tenths = Fulfilled s /\
    Stats.max (Summary.totalTime s) = 0x1.999999999999ap-4%float /\
    Stats.avg (Summary.totalTime s) = 0x1.999999999999bp-4%float /\
    (Stats.max (Summary.totalTime s) <? Stats.avg (Summary.totalTime s))%float
      = true /\
    ordered (Summary.totalTime s) = false.
Proof. eexists. repeat split; vm_compute; reflexivity. Qed.

(* ================================================================== *)
(** * The request rate *)
(* ================================================================== *)

Lemma seconds_exact_sign (d : Z) :
  d <> 0 ->
  Qeq_bool (inject_Z d / inject_Z 1000) 0 = false /\
  (0 < d -> (0 < inject_Z d / inject_Z 1000)%Q) /\
  (d < 0 -> (inject_Z d / inject_Z 1000 < 0)%Q).
Proof.
  intros Hd.
  assert (0 < inject_Z 1000)%Q as H1000 by reflexivity.
  assert (0 < d -> (0 < inject_Z d / inject_Z 1000)%Q) as Hpos.
  { intros H. apply Qlt_shift_div_l; [exact H1000|].
    rewrite Qmult_0_l. rewrite <- (Zlt_Qlt 0). exact H. }
  assert (d < 0 -> (inject_Z d / inject_Z 1000 < 0)%Q) as Hneg.
  { intros H. apply Qlt_shift_div_r; [exact H1000|].
    rewrite Qmult_0_l. rewrite (Zlt_Qlt d 0) in H. exact H. }
  split; [|split; assumption].
  destruct (Qeq_bool (inject_Z d / inject_Z 1000) 0) eqn:Hz; [|reflexivity].
  apply Qeq_bool_iff in Hz.
  destruct (Z.lt_total d 0) as [H|[H|H]]; [|contradiction|].
  - specialize (Hneg H). lra.
  - specialize (Hpos H). lra.
Qed.


(** In exact arithmetic, the first program of part_001 reports a negative
    rate under the same conditions: the span is [testStartTime -
    totalEndTime]. *)
Lemma cli_rate_exact (numRequests testStartTime totalEndTime : Z)
    (stats : list RequestStat.t) :
  0 < numRequests -> testStartTime < totalEndTime ->
  exists r : Q,
    Summary.requestsPerSecond
      (Part001Cli.aggregate numRequests testStartTime totalEndTime stats)
      = XFin r
    /\ (r < 0)%Q.
Proof.
  intros Hn Ht. unfold Part001Cli.aggregate, summarize.
  cbn [Summary.requestsPerSecond]. rewrite seconds_exact.
  destruct (seconds_exact_sign (testStartTime - totalEndTime))
    as (Hz & _ & Hneg); [lia|].
  cbn [num_div num_of_Z exact_arith Exact.div]. rewrite Hz.
  eexists. split; [reflexivity|].
  specialize (Hneg ltac:(lia)).
  assert (0 < inject_Z numRequests)%Q as Hq
    by (rewrite <- (Zlt_Qlt 0); exact Hn).
  set (n := inject_Z numRequests) in *.
  set (d := (inject_Z (testStartTime - totalEndTime) / inject_Z 1000)%Q) in *.
  assert (0 < n / - d)%Q as H.
  { apply Qlt_shift_div_l; [lra|]. lra. }
  assert (n / - d == - (n / d))%Q as Heq by (field; lra).
  rewrite Heq in H. lra.
Qed.

(** On binary64, a run of src/index.ts whose two clock readings coincide
    reports an infinite rate. *)
Lemma index_rate_zero_span :
  Summary.requestsPerSecond (Index.aggregate (num := float) 3 1000 1000 [])
  = infinity.
Proof. vm_compute. reflexivity. Qed.

(** C4.  The claim fails on the first program of part_001: three requests
    run from clock reading 1000 to clock reading 1300, and the rate printed
    is -10 requests per second, because the span is computed as
    [testStartTime - totalEndTime].  On the same run [runLoadTest] of
    src/index.ts reports 10. *)
Theorem cli_rate_is_negative :
  exists s s' : Summary.t float,
    Part001Cli.runLoadTest 3 2 1000 1300 three_tenths
      = Fulfilled (SummaryReport s) /\
    Summary.requestsPerSecond s = (-10)%float /\
    (Summary.requestsPerSecond s <? 0)%float = true /\
    Index.runLoadTest 3 2 1000 1300 three_tenths = Fulfilled s' /\
    Summary.requestsPerSecond s' = 10%float.
Proof. eexists _, _. repeat split; vm_compute; reflexivity. Qed.

(* ================================================================== *)
(** * Aggregating nothing *)
(* ================================================================== *)

(** C6, amended.  Aggregating an empty collection does not fail: it
    returns a summary with both counts 0 in which every metric group has
    [min = Infinity], [max = -Infinity] and [avg = NaN]. *)
Theorem aggregate_empty (numRequests testStartTime testEndTime : Z) :
  let s := Index.aggregate (num := float) numRequests testStartTime
             testEndTime [] in
  let nothing :=
    {| Stats.min := infinity; Stats.max := neg_infinity; Stats.avg := nan |} in
  Summary.successCount s = 0 /\ Summary.failedCount s = 0 /\
  Summary.totalTime s = nothing /\
  Summary.timeToFirstByte s = nothing /\
  Summary.timeToLastByte s = nothing /\
  all_finite nothing = false.
Proof. cbn zeta. repeat split; vm_compute; reflexivity. Qed.

(** C6.  The claim fails: a run of zero requests is aggregated without any
    error, and the mean of the summary it returns is NaN. *)
Lemma empty_run_yields_nan :
  exists s : Summary.t float,
    Index.runLoadTest 0 1 1000 1300 [] = Fulfilled s /\
    is_nan (Stats.avg (Summary.totalTime s)) = true /\
    Stats.min (Summary.totalTime s) = infinity /\
    Stats.max (Summary.totalTime s) = neg_infinity.
Proof. eexists. repeat split; vm_compute; reflexivity. Qed.

(* ================================================================== *)
(** * Transport failures *)
(* ================================================================== *)









(* ================================================================== *)
(** * One request, one worker *)
(* ================================================================== *)

(** The pool run with one request and one worker: the worker calls the
    prober once, pushes its outcome and returns. *)
Lemma run_one_request (makeRequest : exchange -> completion RequestStat.t)
    (x : exchange) (stat : RequestStat.t) :
  makeRequest x = Fulfilled stat ->
  run makeRequest 1 [(0%nat, x)] (spawn 1 1)
  = Some {| requestSent := 1; stats := [stat]; workers := [Returned];
            calls := 1; rejection := None; uncaught := None |}.
Proof. intros Hx. cbn. rewrite Hx. reflexivity. Qed.

(** C9, amended.  The two command-line programs special-case one request
    with one worker: [main] calls the prober directly and prints its
    outcome, without the pool and without the aggregation; that outcome is
    the very record the pool would collect as its only outcome for the same
    exchange.  Every other configuration goes through [runLoadTest]. *)
Theorem single_request_same_outcome {num : Type} `{JSNumber num}
    (x : exchange) (stat : RequestStat.t) :
  Part000.makeRequest x = Fulfilled stat ->
  (Part000.main (num := num) 1 1 [(0%nat, x)] = Fulfilled (RequestReport stat)
   /\
   Part000.runLoadTest (num := num) 1 1 [(0%nat, x)]
     = Fulfilled (RunReport [stat]))
  /\
  (forall testStartTime totalEndTime,
     Part001Cli.main (num := num) 1 1 testStartTime totalEndTime [(0%nat, x)]
       = Fulfilled (RequestReport stat) /\
     Part001Cli.runLoadTest (num := num) 1 1 testStartTime totalEndTime
       [(0%nat, x)]
       = Fulfilled (SummaryReport
           (Part001Cli.aggregate 1 testStartTime totalEndTime [stat])))
  /\
  (forall numRequests concurrency testStartTime totalEndTime schedule,
     (numRequests, concurrency) <> (1, 1) ->
     Part000.main (num := num) numRequests concurrency schedule
       = Part000.runLoadTest numRequests concurrency schedule /\
     Part001Cli.main (num := num) numRequests concurrency testStartTime
       totalEndTime schedule
       = Part001Cli.runLoadTest numRequests concurrency testStartTime
           totalEndTime schedule).
Proof.
  intros Hx. split; [|split].
  - split.
    + unfold Part000.main, single_request. simpl. rewrite Hx. reflexivity.
    + unfold Part000.runLoadTest. rewrite (run_one_request _ x stat Hx).
      reflexivity.
  - intros t0 t1. split.
    + unfold Part001Cli.main, single_request, Part001Cli.makeRequest. simpl.
      rewrite Hx. reflexivity.
    + unfold Part001Cli.runLoadTest.
      rewrite (run_one_request Part001Cli.makeRequest x stat Hx).
      reflexivity.
  - intros n c t0 t1 schedule Hne.
    assert ((n =? 1) && (c =? 1) = false) as Hcond.
    { destruct (Z.eqb_spec n 1) as [->|]; [|reflexivity].
      destruct (Z.eqb_spec c 1) as [->|]; [congruence|reflexivity]. }
    unfold Part000.main, Part001Cli.main. rewrite Hcond. split; reflexivity.
Qed.

Lemma single_request_same_outcome_witness :
  exists stat,
    Part000.makeRequest (served 1000 1050 1060 200) = Fulfilled stat /\
    Part000.main (num := float) 1 1 [(0%nat, served 1000 1050 1060 200)]
      = Fulfilled (RequestReport stat) /\
    Part000.runLoadTest (num := float) 1 1 [(0%nat, served 1000 1050 1060 200)]
      = Fulfilled (RunReport [stat]).
Proof.
  eexists. split; [reflexivity|].
  apply (proj1 (single_request_same_outcome (num := float)
                  (served 1000 1050 1060 200) _ eq_refl)).
Defined.

(** C9.  The claim fails on the first program of part_001: asked for one
    request with one worker, [main] does not run [runLoadTest]; it reports
    the single outcome where [runLoadTest] on the same input reports a
    summary. *)
Lemma cli_single_request_is_special_cased :
  let schedule := [(0%nat, served 1000 1050 1060 200)] in
  exists stat summary,
    Part001Cli.main (num := float) 1 1 1000 1060 schedule
      = Fulfilled (RequestReport stat) /\
    Part001Cli.runLoadTest (num := float) 1 1 1000 1060 schedule
      = Fulfilled (SummaryReport summary) /\
    Part001Cli.main (num := float) 1 1 1000 1060 schedule
      <> Part001Cli.runLoadTest 1 1 1000 1060 schedule.
Proof.
  eexists _, _. split; [vm_compute; reflexivity|].
  split; [vm_compute; reflexivity|]. vm_compute. discriminate.
Qed.

(** A metric that no outcome reports (a run of empty bodies, say, has no
    byte timing at all) gives the same group as an empty collection. *)
Lemma unreported_group (f : RequestStat.t -> option Z)
    (stats : list RequestStat.t) :
  omap f stats = [] ->
  calcStats (num := float) (reported f stats)
  = {| Stats.min := infinity; Stats.max := neg_infinity; Stats.avg := nan |}.
Proof. rewrite reported_omap. intros ->. vm_compute. reflexivity. Qed.

(* ================================================================== *)
(** * Further properties of the probers *)
(* ================================================================== *)



Lemma in_probers (makeRequest : exchange -> completion RequestStat.t) :
  In makeRequest probers ->
  makeRequest = Index.makeRequest \/ makeRequest = Part001Repl.makeRequest \/
  makeRequest = Part000.makeRequest.
Proof. simpl. intuition. Qed.






(** Case analysis on one handler step, the time of the event being known. *)
Ltac event_cases p ev :=
  destruct ev as [message|statusCode| | |message];
  autounfold with prober;
  destruct (res p) as [sc|] eqn:Hres;
  try destruct (firstByteTime p) as [first|] eqn:Hfirst;
  rewrite ?settle_promise, ?settle_res, ?settle_firstByteTime;
  cbn [promise res firstByteTime];
  destruct (promise p) as [|settled|reason|reason] eqn:Hpromise.

Lemma timings_within_total_fold handle issued :
  (handle = Index.handle \/ handle = Part001Repl.handle \/
   handle = Part000.handle) ->
  forall evs p latest,
    issued <= latest -> nondecreasing latest evs = true ->
    (forall t, firstByteTime p = Some t -> issued <= t <= latest) ->
    (forall s, promise p = Fulfilled s -> timings_within_total s) ->
    forall s, promise (fold_left (handle issued) evs p) = Fulfilled s ->
              timings_within_total s.
Proof.
  intros Hh evs.
  induction evs as [|[now ev] evs IH]; intros p latest Hle Hmono Hfb Hout;
    cbn [fold_left]; [exact Hout|].
  cbn [nondecreasing] in Hmono. apply andb_true_iff in Hmono as [Hnow Hmono].
  apply Z.leb_le in Hnow.
  apply (IH _ now); [lia | exact Hmono | |].
  - intros t. destruct Hh as [-> | [-> | ->]]; event_cases p ev;
      intros Ht; simplify_eq;
      try (specialize (Hfb _ eq_refl)); try lia.
  - intros s. destruct Hh as [-> | [-> | ->]]; event_cases p ev;
      intros Hs; simplify_eq;
      try (apply Hout; reflexivity);
      try (specialize (Hfb _ eq_refl));
      unfold timings_within_total, if_first_byte; cbn;
      try destruct (first =? 0);
      (split; [lia|]); split; intros ? ?; simplify_eq; lia.
Qed.

(** X3.  When the clock does not go backwards during an exchange, every
    outcome of the three probers has a non-negative total time, and each
    byte timing it carries lies between 0 and the total time (so
    [timeToFirstByte <= totalTime]). *)
Theorem timings_bounded_by_total
    (makeRequest : exchange -> completion RequestStat.t) (x : exchange)
    (s : RequestStat.t) :
  In makeRequest probers ->
  nondecreasing (startTime x) (events x) = true ->
  makeRequest x = Fulfilled s ->
  timings_within_total s.
Proof.
  intros Hin Hmono.
  destruct (in_probers _ Hin) as [-> | [-> | ->]];
    unfold Index.makeRequest, Part001Repl.makeRequest, Part000.makeRequest;
    apply (timings_within_total_fold _ (startTime x)) with (latest := startTime x);
    auto; try lia; simpl; discriminate.
Qed.

Lemma timings_bounded_by_total_witness :
  exists s,
    Index.makeRequest (served 1000 1050 1060 200) = Fulfilled s /\
    timings_within_total s.
Proof.
  eexists. split; [reflexivity|].
  apply (timings_bounded_by_total Index.makeRequest
           (served 1000 1050 1060 200));
    [left; reflexivity | reflexivity | reflexivity].
Defined.

Lemma byte_timings_together issued endTime first s :
  byte_timings issued endTime first s ->
  is_defined (RequestStat.timeToFirstByte s)
  = is_defined (RequestStat.timeToLastByte s)
  /\
  (first = None ->
   RequestStat.timeToFirstByte s = None /\
   RequestStat.timeToLastByte s = None).
Proof.
  intros [-> ->]. unfold if_first_byte. split.
  - destruct first as [t|]; [destruct (t =? 0)|]; reflexivity.
  - intros ->. split; reflexivity.
Qed.

(** X4.  In src/index.ts and in the interactive program of part_001 an
    outcome carries [timeToFirstByte] exactly when it carries
    [timeToLastByte], and it carries neither when the exchange had no
    ['data'] event (an empty body), while [totalTime] is always there. *)
Theorem byte_timings_come_together (x : exchange) (s : RequestStat.t) :
  Index.makeRequest x = Fulfilled s \/
  Part001Repl.makeRequest x = Fulfilled s ->
  is_defined (RequestStat.timeToFirstByte s)
  = is_defined (RequestStat.timeToLastByte s)
  /\
  ((forall t, ~ In (t, Data) (events x)) ->
   RequestStat.timeToFirstByte s = None /\
   RequestStat.timeToLastByte s = None).
Proof.
  assert (forall first : option Z,
            (forall t1, first = Some t1 -> In (t1, Data) (events x)) ->
            (forall t, ~ In (t, Data) (events x)) -> first = None) as Hnone.
  { intros [t1|] Hfirst Hno; [|reflexivity].
    exfalso. apply (Hno t1), Hfirst. reflexivity. }
  intros [Hs | Hs].
  - apply index_makeRequest_outcome in Hs as (t & sc & _ & [H|H]).
    + destruct H as (endTime & first & _ & Hfirst & _ & _ & _ & Hbt).
      destruct (byte_timings_together _ _ _ _ Hbt) as [Heq Hnil].
      split; [exact Heq|]. intros Hno. apply Hnil, Hnone; assumption.
    + destruct H as (endTime & message & _ & _ & _ & _ & -> & ->).
      split; [reflexivity|]. intros _. split; reflexivity.
  - apply repl_makeRequest_outcome in Hs as (t & sc & _ & _ & [H|H]).
    + destruct H as (endTime & first & _ & Hfirst & _ & _ & Hbt).
      destruct (byte_timings_together _ _ _ _ Hbt) as [Heq Hnil].
      split; [exact Heq|]. intros Hno. apply Hnil, Hnone; assumption.
    + destruct H as (endTime & message & _ & _ & _ & -> & ->).
      split; [reflexivity|]. intros _. split; reflexivity.
Qed.

Lemma byte_timings_come_together_witness :
  let x := {| startTime := 1000;
              events := [(1050, Response (Some 204)); (1050, End_)] |} in
  exists s,
    Index.makeRequest x = Fulfilled s /\
    RequestStat.timeToFirstByte s = None /\
    RequestStat.timeToLastByte s = None /\
    RequestStat.totalTime s = 50.
Proof.
  cbn zeta. eexists. split; [reflexivity|].
  destruct (byte_timings_come_together
              {| startTime := 1000;
                 events := [(1050, Response (Some 204)); (1050, End_)] |}
              _ (or_introl eq_refl)) as [_ Hnone].
  destruct Hnone as [Hf Hl].
  - intros t [H|[H|[]]]; discriminate H.
  - split; [exact Hf|]. split; [exact Hl|reflexivity].
Defined.

(** X5.  In src/index.ts an outcome that carries an [error] is never
    counted as a success by the aggregator. *)
Theorem index_error_is_failure (x : exchange) (s : RequestStat.t) :
  Index.makeRequest x = Fulfilled s ->
  RequestStat.error s <> None ->
  isSuccess s = false.
Proof.
  intros Hs Herr.
  apply index_makeRequest_outcome in Hs as (t & sc & _ & [H|H]).
  - destruct H as (endTime & first & _ & _ & _ & Hnone & _). congruence.
  - destruct H as (endTime & message & _ & Hstatus & _).
    unfold isSuccess. rewrite Hstatus. reflexivity.
Qed.

Lemma index_error_is_failure_witness :
  exists s,
    Index.makeRequest (cut 1000 1050 1060 200) = Fulfilled s /\
    isSuccess s = false.
Proof.
  eexists. split; [reflexivity|].
  apply (index_error_is_failure (cut 1000 1050 1060 200));
    [reflexivity | discriminate].
Defined.

(** X6.  In the interactive program of part_001 the status alone decides
    whether an outcome counts as a success: the outcome of a response
    received with status [sc] is a success exactly when [sc || 0] lies in
    [200, 300), also when the stream failed afterwards and the outcome
    carries an [error]. *)
Theorem repl_success_by_status_alone (x : exchange) (s : RequestStat.t) :
  Part001Repl.makeRequest x = Fulfilled s ->
  exists t sc,
    In (t, Response sc) (events x) /\
    isSuccess s = (200 <=? status_or_0 sc) && (status_or_0 sc <? 300).
Proof.
  intros Hs. apply repl_makeRequest_outcome in Hs as (t & sc & Ht & Hc & _).
  exists t, sc. split; [exact Ht|]. unfold isSuccess. rewrite Hc. reflexivity.
Qed.

Lemma repl_success_by_status_alone_witness :
  exists s,
    Part001Repl.makeRequest (cut 1000 1050 1060 200) = Fulfilled s /\
    RequestStat.error s = Some "aborted"%string /\
    isSuccess s = true.
Proof.
  eexists. split; [reflexivity|]. split; [reflexivity|].
  destruct (repl_success_by_status_alone (cut 1000 1050 1060 200) _ eq_refl)
    as (t & sc & Hin & ->).
  destruct Hin as [H|[H|[H|[]]]]; try discriminate H.
  injection H as _ <-. reflexivity.
Defined.

(** X7.  In src/index.ts and in the interactive program of part_001 the
    two byte timings of an outcome, when both are present, add up to its
    total time. *)
Theorem first_plus_last_after_part000 (x : exchange) (s : RequestStat.t) :
  Index.makeRequest x = Fulfilled s \/
  Part001Repl.makeRequest x = Fulfilled s ->
  first_plus_last_is_total s.
Proof.
  intros [Hs | Hs];
    [eapply index_first_plus_last | eapply repl_first_plus_last]; eauto.
Qed.

Lemma first_plus_last_after_part000_witness :
  exists s,
    Part001Repl.makeRequest (served 1000 1050 1060 200) = Fulfilled s /\
    RequestStat.timeToFirstByte s = Some 50 /\
    RequestStat.timeToLastByte s = Some 10 /\
    50 + 10 = RequestStat.totalTime s.
Proof.
  eexists. split; [reflexivity|]. split; [reflexivity|].
  split; [reflexivity|].
  apply (first_plus_last_after_part000 (served 1000 1050 1060 200) _
           (or_intror eq_refl)); reflexivity.
Defined.

(* ================================================================== *)
(** * The probers compared *)
(* ================================================================== *)




(* ================================================================== *)
(** * Further properties of the worker pool *)
(* ================================================================== *)

(** X10.  At every point of every run, complete or not: [makeRequest] has
    been called at most [numRequests] times, the requests in flight are at
    most [concurrency] and at most [numRequests], and every call is either
    in flight, or has given its outcome, or has made its worker throw. *)
Theorem pool_stays_within_bounds
    (makeRequest : exchange -> completion RequestStat.t)
    (numRequests concurrency : Z) (schedule : list (nat * exchange))
    (p : pool) :
  0 <= numRequests ->
  run makeRequest numRequests schedule (spawn numRequests concurrency)
    = Some p ->
  Z.of_nat (calls p) <= numRequests /\
  (in_flight p <= Z.to_nat concurrency)%nat /\
  Z.of_nat (in_flight p) <= numRequests /\
  (calls p
   = length (stats p) + in_flight p + count is_threw (workers p))%nat.
Proof.
  intros Hn Hrun.
  destruct (spawn_facts numRequests Hn concurrency) as (Hinv & _ & Hlen & _).
  destruct (run_inv makeRequest numRequests _ _ _ Hinv Hrun)
    as [[Hb Hcalls Hacc Hret] Hl].
  pose proof (count_partition (workers p)) as Hpart.
  unfold in_flight. repeat split; lia.
Qed.

Lemma pool_stays_within_bounds_witness :
  exists p,
    run Index.makeRequest 3 (take 1 three_tenths) (spawn 3 2) = Some p /\
    calls p = 3%nat /\ in_flight p = 2%nat /\ length (stats p) = 1%nat /\
    Z.of_nat (calls p) <= 3 /\ (in_flight p <= Z.to_nat 2)%nat.
Proof.
  eexists. split; [reflexivity|]. split; [reflexivity|].
  split; [reflexivity|]. split; [reflexivity|].
  destruct (pool_stays_within_bounds Index.makeRequest 3 2
              (take 1 three_tenths) _ ltac:(lia) eq_refl)
    as (Hcalls & Hflight & _).
  split; [exact Hcalls | exact Hflight].
Defined.

Lemma iter_launch_idle numRequests k :
  numRequests <= 0 ->
  Nat.iter k (launch numRequests) pool0
  = set_workers (replicate k Returned) pool0.
Proof.
  intros Hn. induction k as [|k IH]; [reflexivity|].
  change (Nat.iter (S k) (launch numRequests) pool0)
    with (launch numRequests (Nat.iter k (launch numRequests) pool0)).
  rewrite IH. unfold launch, worker. cbn [requestSent set_workers pool0].
  destruct (Z.ltb_spec 0 numRequests) as [Hlt|_]; [lia|].
  unfold set_workers. cbn. rewrite <- replicate_S_end. reflexivity.
Qed.

(** X11.  A run with a non-positive [numRequests] or a non-positive
    [concurrency] calls the prober not once: the workers, if any, return at
    once, no completion can be scheduled, and [runLoadTest] of src/index.ts
    returns at once the summary of an empty collection, its two counts 0.
    Nothing in [runLoadTest] rejects such a configuration. *)
Theorem nothing_to_run {num : Type} `{JSNumber num}
    (makeRequest : exchange -> completion RequestStat.t)
    (numRequests concurrency testStartTime testEndTime : Z) :
  numRequests <= 0 \/ concurrency <= 0 ->
  let start := spawn numRequests concurrency in
  calls start = 0%nat /\
  in_flight start = 0%nat /\
  (forall ix, resume makeRequest numRequests start ix = None) /\
  Index.runLoadTest (num := num) numRequests concurrency testStartTime
    testEndTime []
  = Fulfilled (Index.aggregate numRequests testStartTime testEndTime []) /\
  Summary.successCount
    (Index.aggregate (num := num) numRequests testStartTime testEndTime [])
  = 0 /\
  Summary.failedCount
    (Index.aggregate (num := num) numRequests testStartTime testEndTime [])
  = 0.
Proof.
  intros Hcase. cbn zeta.
  assert (exists k, spawn numRequests concurrency
                    = set_workers (replicate k Returned) pool0) as [k Hk].
  { destruct Hcase as [Hn | Hc].
    - exists (Z.to_nat concurrency). apply iter_launch_idle, Hn.
    - exists 0%nat. unfold spawn.
      replace (Z.to_nat concurrency) with 0%nat by lia. reflexivity. }
  assert (forall n, forallb is_returned (replicate n Returned) = true)
    as Hall by (induction n; simpl; auto).
  assert (forall n, count is_awaiting (replicate n Returned) = 0%nat)
    as Hidle by (unfold count; induction n; simpl; auto).
  unfold Index.runLoadTest, in_flight. cbn [run]. rewrite Hk.
  cbn [set_workers pool0 calls workers].
  split; [reflexivity|]. split; [apply Hidle|]. split.
  - intros [i x]. unfold resume, set_workers, pool0.
    cbn [uncaught workers].
    destruct (replicate k Returned !! i) as [w|] eqn:Hi; [|reflexivity].
    apply lookup_replicate in Hi as [-> _]. reflexivity.
  - unfold after_join, join, set_workers, pool0.
    cbn [uncaught rejection workers stats].
    rewrite Hall. repeat split.
Qed.

Lemma nothing_to_run_witness :
  calls (spawn 5 0) = 0%nat /\
  Index.runLoadTest (num := float) 5 0 1000 1300 []
  = Fulfilled (Index.aggregate 5 1000 1300 []).
Proof.
  destruct (nothing_to_run (num := float) Index.makeRequest 5 0 1000 1300
              ltac:(right; lia)) as (Hcalls & _ & _ & Hrun & _).
  split; [exact Hcalls | exact Hrun].
Defined.









(* ================================================================== *)
(** * The status counts *)
(* ================================================================== *)

Lemma pretty_N_go_not_error x s :
  (forall s', s <> String (Ascii.ascii_of_nat 101) s') ->
  forall s', pretty_N_go x s <> String (Ascii.ascii_of_nat 101) s'.
Proof.
  revert s. induction (N.lt_wf_0 x) as [x _ IH]; intros s Hs.
  assert (x = 0 \/ 0 < x)%N as [-> | Hx] by lia.
  - rewrite pretty_N_go_0. exact Hs.
  - rewrite pretty_N_go_step by exact Hx. apply IH.
    + apply N.div_lt; [exact Hx | reflexivity].
    + intros s'. unfold pretty_N_char. repeat case_match; discriminate.
Qed.

(** No status code has ["error"] as its property key. *)
Lemma pretty_Z_not_error (c : Z) : pretty c <> "error"%string.
Proof.
  destruct c as [|c|c]; unfold pretty, pretty_Z; [discriminate| |discriminate].
  unfold pretty, pretty_positive, pretty, pretty_N.
  destruct (decide (N.pos c = 0%N)) as [|_]; [discriminate|].
  apply pretty_N_go_not_error. discriminate.
Qed.

Lemma filed_under_snoc key stats stat :
  filed_under key (stats ++ [stat])
  = filed_under key stats + (if String.eqb (status_key stat) key then 1 else 0).
Proof.
  unfold filed_under. rewrite List.filter_app, length_app. simpl.
  destruct (String.eqb (status_key stat) key); simpl; lia.
Qed.

Lemma statusCounts_of_snoc stats stat :
  statusCounts_of (stats ++ [stat])
  = count_status (statusCounts_of stats) stat.
Proof. unfold statusCounts_of. rewrite fold_left_app. reflexivity. Qed.

Lemma statusCounts_lookup stats : forall key,
  statusCounts_of stats !! key = positive_or_none (filed_under key stats).
Proof.
  induction stats as [|stat stats IH] using rev_ind; intros key.
  - reflexivity.
  - rewrite statusCounts_of_snoc, filed_under_snoc. unfold count_status.
    cbn zeta. destruct (String.eqb_spec (status_key stat) key) as [->|Hne].
    + rewrite lookup_insert_eq, IH. unfold positive_or_none, filed_under.
      destruct (Z.eqb_spec
                  (Z.of_nat (length (List.filter
                     (fun s => String.eqb (status_key s) key) stats))) 0)
        as [->|Hnz]; simpl.
      * reflexivity.
      * rewrite (proj2 (Z.eqb_neq _ 0) Hnz).
        destruct (Z.eqb_spec
                    (Z.of_nat (length (List.filter
                       (fun s => String.eqb (status_key s) key) stats)) + 1) 0);
          [lia|reflexivity].
    + rewrite lookup_insert_ne by exact Hne. rewrite IH, Z.add_0_r.
      reflexivity.
Qed.

Lemma counted_insert (m : gmap string Z) key n :
  counted (<[key := n]> m) = counted m - default 0 (m !! key) + n.
Proof.
  unfold counted.
  assert (forall (m' : gmap string Z) (v : Z), m' !! key = None ->
            map_fold (fun _ n total => n + total) 0 (<[key := v]> m')
            = v + map_fold (fun _ n total => n + total) 0 m') as Hfresh.
  { intros m' v Hnone.
    apply (map_fold_insert_L (fun _ n total => n + total));
      [intros; lia | exact Hnone]. }
  destruct (m !! key) as [v|] eqn:Hkey; simpl.
  - rewrite <- (insert_delete_eq m key n).
    rewrite Hfresh by apply lookup_delete_eq.
    rewrite <- (insert_delete_id m key v Hkey) at 2.
    rewrite Hfresh by apply lookup_delete_eq. lia.
  - rewrite Hfresh by exact Hkey. lia.
Qed.

Lemma statusCounts_counted stats :
  counted (statusCounts_of stats) = Z.of_nat (length stats).
Proof.
  induction stats as [|stat stats IH] using rev_ind; [reflexivity|].
  rewrite statusCounts_of_snoc, length_app. unfold count_status. cbn zeta.
  rewrite counted_insert, IH, statusCounts_lookup.
  unfold positive_or_none.
  destruct (Z.eqb_spec (filed_under (status_key stat) stats) 0) as [Hz|Hnz];
    simpl; [lia|].
  rewrite (proj2 (Z.eqb_neq _ 0) Hnz). lia.
Qed.

(** X14.  The status counts kept by the workers of the command-line
    programs are the tally of the outcomes collected so far: the count
    under a status code is the number of outcomes with that status, the
    count under ["error"] is the number of outcomes without a status, a key
    is present only when at least one outcome is filed under it, and the
    counts add up to the number of outcomes. *)
Theorem statusCounts_tally (stats : list RequestStat.t) :
  let occurrences (status : option Z) :=
    Z.of_nat (length (List.filter
      (fun s => bool_decide (RequestStat.statusCode s = status)) stats)) in
  (forall c : Z,
     statusCounts_of stats !! pretty c
     = if occurrences (Some c) =? 0 then None else Some (occurrences (Some c)))
  /\
  statusCounts_of stats !! "error"%string
  = (if occurrences None =? 0 then None else Some (occurrences None))
  /\
  (forall key n, statusCounts_of stats !! key = Some n ->
     0 < n /\ (key = "error"%string \/ exists c : Z, key = pretty c))
  /\
  counted (statusCounts_of stats) = Z.of_nat (length stats).
Proof.
  cbn zeta.
  assert (forall status : option Z,
            filed_under (match status with
                         | Some c => pretty c
                         | None => "error"%string
                         end) stats
            = Z.of_nat (length (List.filter
                (fun s => bool_decide (RequestStat.statusCode s = status))
                stats))) as Hfiled.
  { intros status. unfold filed_under. f_equal. f_equal.
    apply List.filter_ext. intros s. unfold status_key.
    destruct (RequestStat.statusCode s) as [c|], status as [c'|].
    - destruct (String.eqb_spec (pretty c) (pretty c')) as [Heq|Hne].
      + apply (inj pretty) in Heq as ->. rewrite bool_decide_eq_true_2; auto.
      + rewrite bool_decide_eq_false_2; [reflexivity|]. congruence.
    - destruct (String.eqb_spec (pretty c) "error") as [Heq|_].
      + destruct (pretty_Z_not_error c Heq).
      + rewrite bool_decide_eq_false_2; [reflexivity|discriminate].
    - destruct (String.eqb_spec "error" (pretty c')) as [Heq|_].
      + destruct (pretty_Z_not_error c' (eq_sym Heq)).
      + rewrite bool_decide_eq_false_2; [reflexivity|discriminate].
    - reflexivity. }
  split; [|split; [|split]].
  - intros c. rewrite statusCounts_lookup, (Hfiled (Some c)). reflexivity.
  - rewrite statusCounts_lookup, (Hfiled None). reflexivity.
  - intros key n Hn. rewrite statusCounts_lookup in Hn.
    unfold positive_or_none in Hn.
    destruct (Z.eqb_spec (filed_under key stats) 0) as [|Hnz];
      [discriminate|]. injection Hn as <-.
    unfold filed_under in *. split; [lia|].
    destruct (List.filter (fun s => String.eqb (status_key s) key) stats)
      as [|s l] eqn:Hfilter; [simpl in Hnz; lia|].
    assert (In s (List.filter
                    (fun s => String.eqb (status_key s) key) stats)) as Hs
      by (rewrite Hfilter; left; reflexivity).
    apply List.filter_In in Hs as [_ Hkey].
    apply String.eqb_eq in Hkey as <-. unfold status_key.
    destruct (RequestStat.statusCode s) as [c|]; eauto.
  - apply statusCounts_counted.
Qed.

(* ================================================================== *)
(** * The command line *)
(* ================================================================== *)

Lemma append_cons c (s t : string) :
  (String c s ++ t)%string = String c (s ++ t)%string.
Proof. reflexivity. Qed.

Lemma append_nil (t : string) : (EmptyString ++ t)%string = t.
Proof. reflexivity. Qed.

Lemma append_length (s t : string) :
  String.length (s ++ t)%string = (String.length s + String.length t)%nat.
Proof.
  induction s as [|c s IH]; [reflexivity|].
  rewrite append_cons. simpl. f_equal. exact IH.
Qed.

Lemma append_assoc (s t u : string) : ((s ++ t) ++ u = s ++ (t ++ u))%string.
Proof.
  induction s as [|c s IH]; [reflexivity|].
  rewrite !append_cons. f_equal. exact IH.
Qed.

Lemma append_empty_r (s : string) : (s ++ EmptyString)%string = s.
Proof.
  induction s as [|c s IH]; [reflexivity|].
  rewrite append_cons. f_equal. exact IH.
Qed.

Lemma list_ascii_append (s t : string) :
  list_ascii_of_string (s ++ t)%string
  = list_ascii_of_string s ++ list_ascii_of_string t.
Proof.
  induction s as [|c s IH]; [reflexivity|].
  rewrite append_cons. simpl. f_equal. exact IH.
Qed.

Lemma closing_splits q s inner rest :
  closing q s = Some (inner, rest) -> s = (inner ++ String q rest)%string.
Proof.
  revert inner. induction s as [|c s IH]; simpl; intros inner H;
    [discriminate|].
  destruct (Ascii.eqb_spec c q) as [->|Hne].
  - injection H as <- <-. reflexivity.
  - destruct (is_line_terminator c); [discriminate|].
    destruct (closing q s) as [[inner' rest']|]; [|discriminate].
    injection H as <- <-. rewrite append_cons. f_equal. apply IH.
    reflexivity.
Qed.

Lemma closing_found q inner rest :
  all_chars (fun c => negb (Ascii.eqb c q) && negb (is_line_terminator c))
    inner = true ->
  closing q (inner ++ String q rest)%string = Some (inner, rest).
Proof.
  unfold all_chars. induction inner as [|c inner IH];
    rewrite ?append_nil, ?append_cons; simpl; intros H.
  - rewrite Ascii.eqb_refl. reflexivity.
  - apply andb_true_iff in H as [Hc H].
    apply andb_true_iff in Hc as [Hq Hlt].
    apply negb_true_iff in Hq, Hlt. rewrite Hq, Hlt, IH by exact H.
    reflexivity.
Qed.

Lemma word_splits s : forall w rest,
  word s = (w, rest) -> s = (w ++ rest)%string.
Proof.
  induction s as [|c s IH]; simpl; intros w rest H.
  - injection H as <- <-. reflexivity.
  - destruct (is_space c).
    + injection H as <- <-. reflexivity.
    + destruct (word s) as [w' rest']. injection H as <- <-.
      rewrite append_cons. f_equal. apply IH. reflexivity.
Qed.

Lemma word_found w rest :
  all_chars (fun c => negb (is_space c)) w = true ->
  (rest = EmptyString \/ exists c r, rest = String c r /\ is_space c = true) ->
  word (w ++ rest)%string = (w, rest).
Proof.
  unfold all_chars. intros Hw Hrest.
  induction w as [|c w IH]; rewrite ?append_nil, ?append_cons; simpl.
  - destruct Hrest as [-> | (c & r & -> & Hc)]; simpl; [reflexivity|].
    rewrite Hc. reflexivity.
  - simpl in Hw. apply andb_true_iff in Hw as [Hc Hw].
    apply negb_true_iff in Hc. rewrite Hc, IH by exact Hw. reflexivity.
Qed.

Lemma match_here_splits s token rest :
  match_here s = Some (token, rest) ->
  s = (token ++ rest)%string /\ (String.length rest < String.length s)%nat.
Proof.
  destruct s as [|c s]; simpl; [discriminate|].
  destruct (if is_quote c then closing c s else None)
    as [[inner rest']|] eqn:Hq.
  - intros H. injection H as <- <-.
    destruct (is_quote c); [|discriminate].
    apply closing_splits in Hq as ->.
    rewrite append_cons, append_assoc, append_cons, append_nil.
    split; [reflexivity|]. simpl. rewrite append_length. simpl. lia.
  - destruct (is_space c) eqn:Hc; [discriminate|].
    destruct (word s) as [w rest'] eqn:Hw. intros H. injection H as <- <-.
    pose proof (word_splits _ _ _ Hw) as Hs.
    rewrite append_cons. split; [f_equal; exact Hs|].
    rewrite Hs, append_length. simpl. lia.
Qed.

Lemma match_all_enough fuel : forall fuel' s,
  (String.length s <= fuel)%nat -> (String.length s <= fuel')%nat ->
  match_all fuel s = match_all fuel' s.
Proof.
  induction fuel as [|fuel IH]; intros [|fuel'] [|c s] Hf Hf';
    cbn [match_all String.length] in *; try reflexivity; try lia.
  destruct (match_here (String c s)) as [[token rest]|] eqn:Hm.
  - apply match_here_splits in Hm as [_ Hlen]. cbn [String.length] in Hlen.
    f_equal. apply IH; lia.
  - apply IH; lia.
Qed.

(** The unfolding of [tokens]. *)
Lemma tokens_step c s :
  tokens (String c s)
  = match match_here (String c s) with
    | Some (token, rest) => token :: tokens rest
    | None => tokens s
    end.
Proof.
  unfold tokens. cbn [String.length match_all].
  destruct (match_here (String c s)) as [[token rest]|] eqn:Hm.
  - apply match_here_splits in Hm as [_ Hlen]. cbn [String.length] in Hlen.
    f_equal. apply match_all_enough; lia.
  - reflexivity.
Qed.

Lemma space_is_no_quote c : is_space c = true -> is_quote c = false.
Proof.
  unfold is_space, is_quote, code. intros H.
  destruct (Ascii.eqb_spec c double_quote) as [->|_]; [discriminate H|].
  destruct (Ascii.eqb_spec c single_quote) as [->|_]; [discriminate H|].
  reflexivity.
Qed.

Lemma tokens_spaces sp rest :
  all_chars is_space sp = true -> tokens (sp ++ rest)%string = tokens rest.
Proof.
  unfold all_chars. induction sp as [|c sp IH]; intros H; [reflexivity|].
  simpl in H. apply andb_true_iff in H as [Hc H].
  rewrite append_cons, tokens_step. unfold match_here.
  rewrite (space_is_no_quote c Hc), Hc. apply IH, H.
Qed.

Lemma tokens_typed a rest :
  well_typed a = true -> ends_here rest ->
  tokens (as_typed a ++ rest)%string = as_typed a :: tokens rest.
Proof.
  intros Ha Hrest. destruct a as [w|q inner]; simpl in Ha.
  - apply andb_true_iff in Ha as [Hne Hw]. apply negb_true_iff in Hne.
    destruct w as [|c w]; [discriminate Hne|].
    cbn [as_typed]. rewrite append_cons, tokens_step. unfold match_here.
    unfold all_chars in Hw. simpl in Hw.
    apply andb_true_iff in Hw as [Hc Hw].
    apply andb_true_iff in Hc as [Hsp Hq].
    apply negb_true_iff in Hsp, Hq. rewrite Hq, Hsp.
    rewrite <- append_cons, word_found; [reflexivity| |exact Hrest].
    unfold all_chars. simpl. rewrite Hsp. simpl.
    clear -Hw. induction (list_ascii_of_string w) as [|d l IH]; simpl in *;
      [reflexivity|].
    apply andb_true_iff in Hw as [Hd Hw]. apply andb_true_iff in Hd as [-> _].
    simpl. apply IH, Hw.
  - apply andb_true_iff in Ha as [Hq Hinner].
    cbn [as_typed]. rewrite append_cons, append_assoc, append_cons, append_nil.
    rewrite tokens_step. unfold match_here.
    rewrite Hq, closing_found by exact Hinner. reflexivity.
Qed.

Lemma strip_last_plain w :
  all_chars (fun c => negb (is_quote c)) w = true -> strip_last w = w.
Proof.
  unfold all_chars. induction w as [|c w IH]; simpl; intros H; [reflexivity|].
  apply andb_true_iff in H as [Hc H]. apply negb_true_iff in Hc.
  destruct w as [|d w]; [rewrite Hc; reflexivity|].
  f_equal. apply IH, H.
Qed.

Lemma strip_last_quote q inner :
  is_quote q = true ->
  strip_last (inner ++ String q EmptyString) = inner.
Proof.
  intros Hq. induction inner as [|c inner IH].
  - rewrite append_nil. simpl. rewrite Hq. reflexivity.
  - rewrite append_cons. cbn [strip_last].
    destruct (inner ++ String q EmptyString)%string as [|d t] eqn:Ht.
    + destruct inner; discriminate Ht.
    + f_equal. exact IH.
Qed.

Lemma strip_typed a : well_typed a = true -> strip (as_typed a) = meant a.
Proof.
  intros Ha. destruct a as [w|q inner]; simpl in Ha.
  - apply andb_true_iff in Ha as [Hne Hw]. apply negb_true_iff in Hne.
    destruct w as [|c w]; [discriminate Hne|].
    assert (all_chars (fun c => negb (is_quote c)) (String c w) = true)
      as Hplain.
    { unfold all_chars in *.
      induction (list_ascii_of_string (String c w)) as [|d l IH];
        simpl in *; [reflexivity|].
      apply andb_true_iff in Hw as [Hd Hw].
      apply andb_true_iff in Hd as [_ ->]. simpl. apply IH, Hw. }
    cbn [as_typed meant strip].
    assert (is_quote c = false) as ->.
    { unfold all_chars in Hplain. simpl in Hplain.
      apply andb_true_iff in Hplain as [Hc _]. apply negb_true_iff, Hc. }
    apply strip_last_plain, Hplain.
  - apply andb_true_iff in Ha as [Hq _]. cbn [as_typed meant strip].
    rewrite Hq. apply strip_last_quote, Hq.
Qed.

Lemma separator_ends sep rest :
  sep <> EmptyString -> all_chars is_space sep = true ->
  ends_here (sep ++ rest)%string.
Proof.
  intros Hne Hsp. destruct sep as [|c sep]; [congruence|].
  right. exists c, (sep ++ rest)%string. split; [reflexivity|].
  unfold all_chars in Hsp. simpl in Hsp.
  apply andb_true_iff in Hsp as [Hc _]. exact Hc.
Qed.

(** X15.  Arguments typed as plain words (no white space, no quote) or as
    texts between two quotes of the same kind (without that quote and
    without line terminator inside, white space and the other quote being
    allowed), and separated by white space, reach the option parser one by
    one and unchanged, the quoted ones without their quotes. *)
Theorem typed_arguments_round_trip (sep : string) (items : list typed) :
  sep <> EmptyString -> all_chars is_space sep = true ->
  forallb well_typed items = true ->
  arguments (String.concat sep (map as_typed items)) = map meant items.
Proof.
  intros Hne Hsp. unfold arguments.
  induction items as [|a items IH]; intros Hall; [reflexivity|].
  cbn [forallb] in Hall. apply andb_true_iff in Hall as [Ha Hall].
  specialize (IH Hall). cbn [map String.concat].
  destruct items as [|b items].
  - cbn [map]. rewrite <- (append_empty_r (as_typed a)).
    rewrite tokens_typed; [|exact Ha|left; reflexivity].
    cbn [map]. rewrite strip_typed by exact Ha. reflexivity.
  - cbn [map] in *.
    rewrite tokens_typed;
      [|exact Ha|apply separator_ends; assumption].
    rewrite tokens_spaces by exact Hsp.
    cbn [map]. rewrite strip_typed by exact Ha. f_equal. exact IH.
Qed.

Lemma typed_arguments_round_trip_witness :
  let body :=
    String.append "{"
      (String double_quote (String.append "a" (String double_quote ": 1}"))) in
  let items :=
    [Plain "-n"; Plain "10"; Plain "-b"; Quoted single_quote body] in
  forallb well_typed items = true /\
  arguments (String.concat " " (map as_typed items))
  = ["-n"; "10"; "-b"; body]%string.
Proof.
  split; [reflexivity|].
  exact (typed_arguments_round_trip " "
           [Plain "-n"; Plain "10"; Plain "-b";
            Quoted single_quote
              (String.append "{"
                 (String double_quote
                    (String.append "a" (String double_quote ": 1}"))))]
           ltac:(discriminate) eq_refl eq_refl).
Defined.

Lemma ink_append s t : ink (s ++ t)%string = ink s ++ ink t.
Proof. unfold ink. rewrite list_ascii_append, List.filter_app. reflexivity. Qed.

(** X16.  The tokens are cut out of the input in order and nothing but
    white space is left out between them: the characters of the tokens
    that are not white space are those of the input, in the same order. *)
Theorem tokens_keep_the_ink (input : string) :
  concat (map ink (tokens input)) = ink input.
Proof.
  remember (String.length input) as n eqn:Hn.
  revert input Hn. induction (lt_wf n) as [n _ IH]. intros input ->.
  destruct input as [|c s]; [reflexivity|].
  rewrite tokens_step.
  destruct (match_here (String c s)) as [[token rest]|] eqn:Hm.
  - apply match_here_splits in Hm as [Hsplit Hlen].
    cbn [map concat]. rewrite (IH _ Hlen rest eq_refl).
    rewrite Hsplit, ink_append. reflexivity.
  - rewrite (IH (String.length s) ltac:(simpl; lia) s eq_refl).
    unfold match_here in Hm.
    destruct (if is_quote c then closing c s else None) as [[? ?]|];
      [discriminate|].
    destruct (is_space c) eqn:Hc; [|discriminate].
    unfold ink. simpl. rewrite Hc. reflexivity.
Qed.
